(** * Host-side serial control of the Tilta Nucleus Nano 2 motor: server.py

    A shallow embedding of [firmware/src/server.py] and the properties of
    its enumeration, connection, command and session logic.

    Text is a list of Unicode code points, bytes are integers in [0, 256),
    console and serial effects are recorded in an event log, and Python
    exceptions are an outcome of the computation. *)

From Stdlib Require Import String Ascii DecimalString ZArith Bool List Lia.
Import ListNotations.
Open Scope Z_scope.

(** ** Text and bytes *)

(** A Python [str]: its code points, each in [0, 0x10FFFF]. *)
Definition str := list Z.

(** A Python [bytes] value: each element in [0, 256). *)
Definition bytes := list Z.

Definition is_byte (b : Z) : Prop := 0 <= b < 256.
Definition is_ascii (c : Z) : bool := (0 <=? c) && (c <? 128).

(** A code point that UTF-8 can carry: any code point but a surrogate. *)
Definition is_scalar (c : Z) : Prop :=
  0 <= c < 0xD800 \/ 0xDFFF < c <= 0x10FFFF.

(** Literals of the source, written as Rocq strings (ASCII only). *)
Definition lit (s : string) : str :=
  map (fun a => Z.of_nat (nat_of_ascii a)) (list_ascii_of_string s).
Arguments lit s%_string.

Definition LF : Z := 10.
Definition CR : Z := 13.

Fixpoint str_eqb (a b : str) : bool :=
  match a, b with
  | [], [] => true
  | x :: a', y :: b' => (x =? y) && str_eqb a' b'
  | _, _ => false
  end.

(** [str(n)] and [f"{n}"] for an integer: its decimal numeral. *)
Definition str_of_Z (n : Z) : str := lit (NilZero.string_of_int (Z.to_int n)).
Definition str_of_nat (n : nat) : str := str_of_Z (Z.of_nat n).

(** *** UTF-8, as [str.encode()] produces it (error handler [strict]) *)

Definition utf8_encode_char (c : Z) : option bytes :=
  if c <? 0 then None
  else if c <? 0x80 then Some [c]
  else if c <? 0x800 then
    Some [Z.lor 0xC0 (Z.shiftr c 6); Z.lor 0x80 (Z.land c 0x3F)]
  else if (0xD800 <=? c) && (c <=? 0xDFFF) then None
  else if c <? 0x10000 then
    Some [Z.lor 0xE0 (Z.shiftr c 12);
          Z.lor 0x80 (Z.land (Z.shiftr c 6) 0x3F);
          Z.lor 0x80 (Z.land c 0x3F)]
  else if c <=? 0x10FFFF then
    Some [Z.lor 0xF0 (Z.shiftr c 18);
          Z.lor 0x80 (Z.land (Z.shiftr c 12) 0x3F);
          Z.lor 0x80 (Z.land (Z.shiftr c 6) 0x3F);
          Z.lor 0x80 (Z.land c 0x3F)]
  else None.

(** [None] stands for [UnicodeEncodeError] (a lone surrogate). *)
Fixpoint utf8_encode (s : str) : option bytes :=
  match s with
  | [] => Some []
  | c :: s' =>
    match utf8_encode_char c, utf8_encode s' with
    | Some b, Some bs => Some (b ++ bs)
    | _, _ => None
    end
  end.

(** *** UTF-8, as [bytes.decode('utf-8', errors=...)] reads it

    The decoder reports an ill-formed span to the error handler and resumes
    after it; [repl] is what the handler puts in its place: nothing for
    [errors='ignore'], U+FFFD for [errors='replace'].  A truncated but so far
    well-formed sequence at the end of the data is one span. *)

Definition is_cont (b : Z) : bool := (0x80 <=? b) && (b <? 0xC0).

Definition cp2 (b1 b2 : Z) : Z :=
  Z.lor (Z.shiftl (Z.land b1 0x1F) 6) (Z.land b2 0x3F).
Definition cp3 (b1 b2 b3 : Z) : Z :=
  Z.lor (Z.shiftl (Z.land b1 0x0F) 12)
        (Z.lor (Z.shiftl (Z.land b2 0x3F) 6) (Z.land b3 0x3F)).
Definition cp4 (b1 b2 b3 b4 : Z) : Z :=
  Z.lor (Z.shiftl (Z.land b1 0x07) 18)
        (Z.lor (Z.shiftl (Z.land b2 0x3F) 12)
               (Z.lor (Z.shiftl (Z.land b3 0x3F) 6) (Z.land b4 0x3F))).

(** Second byte of a three-byte form: rejects overlong forms and surrogates. *)
Definition bad2_of3 (b1 b2 : Z) : bool :=
  negb (is_cont b2) || (if b2 <? 0xA0 then b1 =? 0xE0 else b1 =? 0xED).
(** Second byte of a four-byte form: rejects overlong forms and > U+10FFFF. *)
Definition bad2_of4 (b1 b2 : Z) : bool :=
  negb (is_cont b2) || (if b2 <? 0x90 then b1 =? 0xF0 else b1 =? 0xF4).

Fixpoint utf8_decode (repl : str) (bs : bytes) : str :=
  match bs with
  | [] => []
  | b1 :: r1 =>
    if b1 <? 0x80 then b1 :: utf8_decode repl r1
    else if b1 <? 0xC2 then repl ++ utf8_decode repl r1
    else if b1 <? 0xE0 then
      match r1 with
      | [] => repl
      | b2 :: r2 =>
        if is_cont b2 then cp2 b1 b2 :: utf8_decode repl r2
        else repl ++ utf8_decode repl r1
      end
    else if b1 <? 0xF0 then
      match r1 with
      | [] => repl
      | b2 :: r2 =>
        if bad2_of3 b1 b2 then repl ++ utf8_decode repl r1
        else match r2 with
             | [] => repl
             | b3 :: r3 =>
               if is_cont b3 then cp3 b1 b2 b3 :: utf8_decode repl r3
               else repl ++ utf8_decode repl r2
             end
      end
    else if b1 <? 0xF5 then
      match r1 with
      | [] => repl
      | b2 :: r2 =>
        if bad2_of4 b1 b2 then repl ++ utf8_decode repl r1
        else match r2 with
             | [] => repl
             | b3 :: r3 =>
               if negb (is_cont b3) then repl ++ utf8_decode repl r2
               else match r3 with
                    | [] => repl
                    | b4 :: r4 =>
                      if is_cont b4 then cp4 b1 b2 b3 b4 :: utf8_decode repl r4
                      else repl ++ utf8_decode repl r3
                    end
             end
      end
    else repl ++ utf8_decode repl r1
  end.

(** [bytes.decode('utf-8', errors='ignore')] *)
Definition decode_ignore (bs : bytes) : str := utf8_decode [] bs.

(** The decoding the specification words describe: [errors='replace']. *)
Definition decode_replace (bs : bytes) : str := utf8_decode [0xFFFD] bs.

(** *** The [str] methods the program calls *)

(** [str.isspace] on one code point; [str.strip()] removes these. *)
Definition isspace (c : Z) : bool :=
  ((0x09 <=? c) && (c <=? 0x0D)) || ((0x1C <=? c) && (c <=? 0x20))
  || (c =? 0x85) || (c =? 0xA0) || (c =? 0x1680)
  || ((0x2000 <=? c) && (c <=? 0x200A))
  || (c =? 0x2028) || (c =? 0x2029) || (c =? 0x202F) || (c =? 0x205F)
  || (c =? 0x3000).

Fixpoint lstrip (s : str) : str :=
  match s with
  | [] => []
  | c :: s' => if isspace c then lstrip s' else s
  end.
Definition rstrip (s : str) : str := rev (lstrip (rev s)).
Definition strip (s : str) : str := rstrip (lstrip s).

Fixpoint startswith (p s : str) : bool :=
  match p, s with
  | [], _ => true
  | _ :: _, [] => false
  | x :: p', y :: s' => (x =? y) && startswith p' s'
  end.

(** [needle in hay] on two strings: case-sensitive substring search. *)
Fixpoint contains (needle hay : str) : bool :=
  startswith needle hay
  || match hay with
     | [] => false
     | _ :: hay' => contains needle hay'
     end.

Definition ascii_upper (c : Z) : Z :=
  if (0x61 <=? c) && (c <=? 0x7A) then c - 32 else c.
Definition ascii_lower (c : Z) : Z :=
  if (0x41 <=? c) && (c <=? 0x5A) then c + 32 else c.

(** Truthiness of a string or a list: non-empty. *)
Definition truthy {A : Type} (l : list A) : bool :=
  match l with [] => false | _ :: _ => true end.

(** [int(s)] restricted to ASCII numerals: surrounding blanks, an optional
    sign, decimal digits.  It instantiates the interpreter's [int] where a
    statement is evaluated on a concrete line. *)
Definition digit_val (c : Z) : option Z :=
  if (0x30 <=? c) && (c <=? 0x39) then Some (c - 0x30) else None.

Fixpoint digits_val (acc : Z) (s : str) : option Z :=
  match s with
  | [] => Some acc
  | c :: s' =>
    match digit_val c with
    | Some d => digits_val (10 * acc + d) s'
    | None => None
    end
  end.

Definition ascii_int (s : str) : option Z :=
  match strip s with
  | [] => None
  | c :: s' =>
    if c =? 0x2D then
      (if truthy s' then option_map Z.opp (digits_val 0 s') else None)
    else if c =? 0x2B then
      (if truthy s' then digits_val 0 s' else None)
    else digits_val 0 (c :: s')
  end.

(** ** The outside world *)

(** One entry of [serial.tools.list_ports.comports()]. *)
Record Port : Type := mkPort {
  device : str;
  description : str;
  manufacturer : option str
}.

(** [str(x)] of an attribute that may be [None]. *)
Definition str_of_opt (o : option str) : str :=
  match o with
  | Some s => s
  | None => lit "None"
  end.

(** What the process does to its surroundings, in order.  Durations are in
    milliseconds; a printed text includes its line end. *)
Inductive event : Type :=
| EPrint (text : str) (flush : bool)
| EInput (prompt : str)
| EOpen (port : str) (baud : Z) (timeout_ms : Z) (ok : bool)
| EWrite (data : bytes)
| ERead (data : bytes)
| ESleep (ms : Z)
| EClose
| EThreadStart.

Inductive exn : Type :=
| KeyboardInterrupt
| EOFError
| ValueError
| IndexError
| UnicodeEncodeError
| SerialException (msg : str).

(** The state the main thread runs against.
    - [stdin]: the lines still to come on standard input, without their
      line ends; none left is end of file;
    - [sigint]: the interrupt signal of the run, if one is still to come,
      as the number of operations that complete before it is delivered (a
      run is followed through one interrupt, delivered as an operation
      starts);
    - [comports]: the serial ports of the machine;
    - [openable]: the port paths that open; any other fails with
      [open_error];
    - [is_open], [in_buf]: the connection and the bytes waiting in it. *)
Record World : Type := mkWorld {
  stdin : list str;
  sigint : option nat;
  comports : list Port;
  openable : list str;
  open_error : str;
  is_open : bool;
  in_buf : bytes
}.

Definition set_stdin (l : list str) (w : World) : World :=
  mkWorld l (sigint w) (comports w) (openable w) (open_error w) (is_open w) (in_buf w).
Definition set_sigint (s : option nat) (w : World) : World :=
  mkWorld (stdin w) s (comports w) (openable w) (open_error w) (is_open w) (in_buf w).
Definition set_is_open (b : bool) (w : World) : World :=
  mkWorld (stdin w) (sigint w) (comports w) (openable w) (open_error w) b (in_buf w).
Definition set_in_buf (b : bytes) (w : World) : World :=
  mkWorld (stdin w) (sigint w) (comports w) (openable w) (open_error w) (is_open w) b.

(** ** Computations: state, log and exceptions *)

Inductive outcome (A : Type) : Type :=
| Ok (a : A)
| Raise (e : exn)
| OutOfFuel.
Arguments Ok {A} a.
Arguments Raise {A} e.
Arguments OutOfFuel {A}.

Record result (A : Type) : Type := Res {
  outcome_of : outcome A;
  world_of : World;
  log_of : list event
}.
Arguments Res {A} _ _ _.
Arguments outcome_of {A} _.
Arguments world_of {A} _.
Arguments log_of {A} _.

Definition M (A : Type) : Type := World -> result A.

Definition ret {A : Type} (a : A) : M A := fun w => Res (Ok a) w [].

Definition raise {A : Type} (e : exn) : M A := fun w => Res (Raise e) w [].

(** What is logged before an exception stays logged. *)
Definition bind {A B : Type} (m : M A) (k : A -> M B) : M B := fun w =>
  let r := m w in
  match outcome_of r with
  | Ok a =>
    let r' := k a (world_of r) in
    Res (outcome_of r') (world_of r') (log_of r ++ log_of r')
  | Raise e => Res (Raise e) (world_of r) (log_of r)
  | OutOfFuel => Res OutOfFuel (world_of r) (log_of r)
  end.

Declare Scope monad_scope.
Delimit Scope monad_scope with monad.
Bind Scope monad_scope with M.
Notation "x <- c ;; k" := (bind c (fun x => k))
  (at level 61, c at next level, right associativity) : monad_scope.
Notation "c ;; k" := (bind c (fun _ => k))
  (at level 61, right associativity) : monad_scope.
Open Scope monad_scope.

(** [try: m  except <handles>: ...]: [handler e] is the clause for [e]. *)
Definition try_except {A : Type} (m : M A) (handler : exn -> option (M A)) : M A :=
  fun w =>
  let r := m w in
  match outcome_of r with
  | Raise e =>
    match handler e with
    | Some h =>
      let r' := h (world_of r) in
      Res (outcome_of r') (world_of r') (log_of r ++ log_of r')
    | None => r
    end
  | _ => r
  end.

Definition emit (e : event) : M unit := fun w => Res (Ok tt) w [e].
Definition get {A : Type} (f : World -> A) : M A := fun w => Res (Ok (f w)) w [].
Definition modify (f : World -> World) : M unit := fun w => Res (Ok tt) (f w) [].

(** Delivery of a pending interrupt signal: checked as each operation
    starts. *)
Definition tick : M unit := fun w =>
  match sigint w with
  | None => Res (Ok tt) w []
  | Some O => Res (Raise KeyboardInterrupt) (set_sigint None w) []
  | Some (S n) => Res (Ok tt) (set_sigint (Some n) w) []
  end.

(** [print(s)] *)
Definition print_ (s : str) : M unit := tick ;; emit (EPrint (s ++ [LF]) false).

(** [input(prompt)] *)
Definition input_ (prompt : str) : M str :=
  tick ;;
  emit (EInput prompt) ;;
  l <- get stdin ;;
  match l with
  | [] => raise EOFError
  | line :: rest => modify (set_stdin rest) ;; ret line
  end.

(** [time.sleep] *)
Definition sleep (ms : Z) : M unit := tick ;; emit (ESleep ms).

(** A [serial.Serial] object, by the port it was made for. *)
Record Serial : Type := mkSerial { port : str }.

Definition port_not_open : str := lit "Attempting to use a port that is not open".

(** [serial.Serial(port_name, baud, timeout=...)], for a [port_name] that
    the operating system takes as a path: the port opens, or the failure is
    a [SerialException]. *)
Definition serial_open (port_name : str) (baud timeout_ms : Z) : M Serial :=
  tick ;;
  ok <- get (fun w => existsb (str_eqb port_name) (openable w)) ;;
  emit (EOpen port_name baud timeout_ms ok) ;;
  if ok : bool then modify (set_is_open true) ;; ret (mkSerial port_name)
  else (msg <- get open_error ;; raise (SerialException msg)).

Definition require_open : M unit :=
  o <- get is_open ;;
  if o : bool then ret tt else raise (SerialException port_not_open).

(** [ser.write(data)] *)
Definition ser_write (ser : Serial) (data : bytes) : M unit :=
  tick ;; require_open ;; emit (EWrite data).

(** [ser.in_waiting] *)
Definition ser_in_waiting (ser : Serial) : M nat :=
  tick ;; require_open ;; get (fun w => length (in_buf w)).

(** [ser.read(n)] when at least [n] bytes are waiting *)
Definition ser_read (ser : Serial) (n : nat) : M bytes :=
  tick ;; require_open ;;
  b <- get in_buf ;;
  modify (set_in_buf (skipn n b)) ;;
  emit (ERead (firstn n b)) ;;
  ret (firstn n b).

(** [ser.close()]: nothing to do on a closed port *)
Definition ser_close (ser : Serial) : M unit :=
  tick ;;
  o <- get is_open ;;
  if o : bool then modify (set_is_open false) ;; emit EClose else ret tt.

(** [threading.Thread(...).start()] *)
Definition thread_start : M unit := tick ;; emit EThreadStart.

(** [str.encode()] *)
Definition encode (s : str) : M bytes :=
  match utf8_encode s with
  | Some b => ret b
  | None => raise UnicodeEncodeError
  end.

(** [for i, x in enumerate(l): body] *)
Fixpoint for_enumerate {A : Type} (i : nat) (l : list A) (body : nat -> A -> M unit) : M unit :=
  match l with
  | [] => ret tt
  | x :: l' => body i x ;; for_enumerate (S i) l' body
  end.

(** [for x in l: body] *)
Fixpoint for_each {A : Type} (l : list A) (body : A -> M unit) : M unit :=
  match l with
  | [] => ret tt
  | x :: l' => body x ;; for_each l' body
  end.

(** [for i, x in enumerate(l): body], the body updating a local [s] *)
Fixpoint for_enumerate_acc {A St : Type} (i : nat) (l : list A)
    (body : nat -> A -> St -> M St) (s : St) : M St :=
  match l with
  | [] => ret s
  | x :: l' => s' <- body i x s ;; for_enumerate_acc (S i) l' body s'
  end.

(** [list(serial.tools.list_ports.comports())] *)
Definition list_comports : M (list Port) := tick ;; get comports.

(** ** The program *)

(** The test of [list_devices] on one port. *)
Definition is_candidate (p : Port) : bool :=
  contains (lit "Tilta Motor Control") (description p)
  || contains (lit "Straw Lab") (str_of_opt (manufacturer p)).

Definition list_devices : M (list Port * list Port) :=
  ports <- list_comports ;;
  devices <- for_enumerate_acc 0 ports
    (fun i p devices =>
       print_ (str_of_nat i ++ lit ": " ++ device p ++ lit " - " ++ description p) ;;
       if is_candidate p then ret (devices ++ [p]) else ret devices)
    [] ;;
  ret (ports, devices).

Definition send_command (ser : Serial) (command : str) : M unit :=
  data <- encode (command ++ [CR; LF]) ;;
  ser_write ser data ;;
  sleep 100.

Definition positions : list (Z * str) :=
  [ (0, lit "Minimum position");
    (1024, lit "Quarter position");
    (2048, lit "Center position");
    (3072, lit "Three-quarter position");
    (4095, lit "Maximum position");
    (2048, lit "Back to center") ].

Definition demo_mode (ser : Serial) : M unit :=
  print_ (LF :: lit "=== DEMO MODE ===") ;;
  print_ (lit "Running motor demo sequence...") ;;
  for_each positions
    (fun '(pos, desc) =>
       print_ (LF :: desc ++ lit "...") ;;
       send_command ser (lit "POS " ++ str_of_Z pos) ;;
       sleep 2000) ;;
  print_ (LF :: lit "Demo complete!").

(** What one pass of the reader thread finds on the connection: nothing
    waiting, a chunk of bytes, or an error of [in_waiting] or [read]. *)
Inductive poll : Type :=
| PollIdle
| PollData (chunk : bytes)
| PollError.

(** The reader thread, against the passes it makes while [ser.is_open]
    holds; the connection is closed when they are used up. *)
Fixpoint read_responses (polls : list poll) : list event :=
  match polls with
  | [] => []
  | PollIdle :: rest => ESleep 10 :: read_responses rest
  | PollData chunk :: rest =>
    ERead chunk :: EPrint (decode_ignore chunk) true :: ESleep 10
      :: read_responses rest
  | PollError :: _ => []
  end.

Section Server.

(** The interpreter's part: case mapping of text that has code points beyond
    ASCII, and [int] on a string ([None]: it raises [ValueError]). *)
Variable unicode_upper : str -> str.
Variable unicode_lower : str -> str.
Variable py_int : str -> option Z.

Definition upper (s : str) : str :=
  if forallb is_ascii s then map ascii_upper s else unicode_upper s.
Definition lower (s : str) : str :=
  if forallb is_ascii s then map ascii_lower s else unicode_lower s.

Definition int_ (s : str) : M Z :=
  match py_int s with
  | Some n => ret n
  | None => raise ValueError
  end.

Definition on_ValueError {A : Type} (h : M A) (e : exn) : option (M A) :=
  match e with ValueError => Some h | _ => None end.
Definition on_KeyboardInterrupt {A : Type} (h : M A) (e : exn) : option (M A) :=
  match e with KeyboardInterrupt => Some h | _ => None end.
Definition on_SerialException {A : Type} (h : str -> M A) (e : exn) : option (M A) :=
  match e with SerialException msg => Some (h msg) | _ => None end.

(** [l[i].device] once [0 <= i < len(l)] has been tested *)
Definition device_at (l : list Port) (i : Z) : M str :=
  match nth_error l (Z.to_nat i) with
  | Some p => ret (device p)
  | None => raise IndexError
  end.

(** The numbered choice both branches of [connect_to_device] make. [None]
    is the early [return None]. *)
Definition select_from (prompt : str) (l : list Port) : M (option str) :=
  try_except
    (line <- input_ prompt ;;
     selection <- int_ line ;;
     if (0 <=? selection) && (selection <? Z.of_nat (length l)) then
       name <- device_at l selection ;; ret (Some name)
     else
       (print_ (lit "Invalid selection!") ;; ret None))
    (on_ValueError (print_ (lit "Invalid input!") ;; ret None)).

Definition connect_to_device (port_name : option str) : M (option Serial) :=
  chosen <-
    (if negb (truthy (match port_name with Some s => s | None => [] end)) then
       pd <- list_devices ;;
       let '(ports, devices) := pd in
       if truthy devices then
         if (length devices =? 1)%nat then
           name <- device_at devices 0 ;;
           print_ (LF :: lit "Auto-detected motor controller on " ++ name) ;;
           ret (Some name)
         else
           (print_ (LF :: lit "Found " ++ str_of_nat (length devices)
                       ++ lit " motor controllers:") ;;
            for_enumerate 0 devices
              (fun i dev => print_ (lit "  " ++ str_of_nat i ++ lit ": " ++ device dev)) ;;
            select_from (lit "Select device number: ") devices)
       else
         if negb (truthy ports) then
           print_ (lit "No serial ports found!") ;; ret None
         else
           select_from (LF :: lit "No motor controller found. Select port number: ") ports
     else ret port_name) ;;
  match chosen with
  | None => ret None
  | Some name =>
    try_except
      (ser <- serial_open name 115200 1000 ;;
       print_ (lit "Connected to " ++ name) ;;
       ret (Some ser))
      (on_SerialException
         (fun msg =>
            print_ (lit "Failed to connect to " ++ name ++ lit ": " ++ msg) ;;
            ret None))
  end.

Inductive ctl : Type := Continue | Break.

(** One turn of the [while True] of [interactive_mode]. *)
Definition interactive_step (ser : Serial) : M ctl :=
  try_except
    (line <- input_ [] ;;
     let cmd := strip line in
     if str_eqb (upper cmd) (lit "QUIT") then ret Break
     else if str_eqb (upper cmd) (lit "DEMO") then demo_mode ser ;; ret Continue
     else if truthy cmd then send_command ser cmd ;; ret Continue
     else ret Continue)
    (on_KeyboardInterrupt (print_ (LF :: lit "Exiting...") ;; ret Break)).

Fixpoint interactive_loop (fuel : nat) (ser : Serial) : M unit :=
  match fuel with
  | O => fun w => Res OutOfFuel w []
  | S fuel' =>
    c <- interactive_step ser ;;
    match c with
    | Break => ret tt
    | Continue => interactive_loop fuel' ser
    end
  end.

(** Every turn of the loop starts by taking a line from standard input, so
    one more turn than there are lines is as far as it can go. *)
Definition interactive_mode (ser : Serial) : M unit :=
  print_ (LF :: lit "=== INTERACTIVE MODE ===") ;;
  print_ (lit "Commands:") ;;
  print_ (lit "  POS <0-4095>  - Set motor position") ;;
  print_ (lit "  STATUS        - Get current status") ;;
  print_ (lit "  HELP          - Show device help") ;;
  print_ (lit "  DEMO          - Run demo sequence") ;;
  print_ (lit "  QUIT          - Exit") ;;
  print_ [] ;;
  thread_start ;;
  n <- get (fun w => length (stdin w)) ;;
  interactive_loop (S n) ser.

Definition main (argv : list str) : M unit :=
  print_ (lit "Tilta Nucleus Nano 2 Motor Control") ;;
  print_ (lit "===================================") ;;
  ser <- connect_to_device None ;;
  match ser with
  | None => ret tt
  | Some ser =>
    sleep 1000 ;;
    n <- ser_in_waiting ser ;;
    (if (0 <? n)%nat then (n' <- ser_in_waiting ser ;; ser_read ser n' ;; ret tt)
     else ret tt) ;;
    (if (1 <? length argv)%nat && str_eqb (lower (nth 1 argv [])) (lit "demo")
     then demo_mode ser
     else interactive_mode ser) ;;
    ser_close ser ;;
    print_ (lit "Disconnected")
  end.

End Server.

(** ** Vocabulary of the statements *)

(** [needle] occurs in [hay] as a run of consecutive code points. *)
Definition substring (needle hay : str) : Prop :=
  exists pre post : str, hay = pre ++ needle ++ post.

(** [enumerate(l)] counted from [i]. *)
Definition enumerate {A : Type} (i : nat) (l : list A) : list (nat * A) :=
  combine (seq i (length l)) l.

(** The line [list_devices] prints for a port. *)
Definition port_line (ip : nat * Port) : event :=
  EPrint (str_of_nat (fst ip) ++ lit ": " ++ device (snd ip) ++ lit " - "
            ++ description (snd ip) ++ [LF]) false.

Definition listing (ports : list Port) : list event :=
  map port_line (enumerate 0 ports).

(** What one step of the Demo Sequence does, and the whole of it. *)
Definition demo_step_log (step : Z * str) : list event :=
  [ EPrint (LF :: snd step ++ lit "..." ++ [LF]) false;
    EWrite (lit "POS " ++ str_of_Z (fst step) ++ [13; 10]);
    ESleep 100;
    ESleep 2000 ].

Definition demo_log : list event :=
  [ EPrint (LF :: lit "=== DEMO MODE ===" ++ [LF]) false;
    EPrint (lit "Running motor demo sequence..." ++ [LF]) false ]
  ++ flat_map demo_step_log positions
  ++ [ EPrint (LF :: lit "Demo complete!" ++ [LF]) false ].

(** The ports that pass the test of [list_devices]. *)
Definition candidates (ports : list Port) : list Port := filter is_candidate ports.

(** When [connect_to_device] asks for a number: the list it offers, what it
    prints before asking, and the prompt. *)
Definition offered (ports : list Port) : list Port :=
  if truthy (candidates ports) then candidates ports else ports.

Definition device_lines (devices : list Port) : list event :=
  map (fun ix => EPrint ((lit "  " ++ str_of_nat (fst ix) ++ lit ": " ++ device (snd ix)) ++ [LF]) false)
      (enumerate 0 devices).

Definition menu (ports : list Port) : list event :=
  listing ports ++
  (if truthy (candidates ports) then
     EPrint ((LF :: lit "Found " ++ str_of_nat (length (candidates ports))
                ++ lit " motor controllers:") ++ [LF]) false
     :: device_lines (candidates ports)
   else []).

Definition prompt_of (ports : list Port) : str :=
  if truthy (candidates ports) then lit "Select device number: "
  else LF :: lit "No motor controller found. Select port number: ".

(** The enumeration leads to a prompt: there are ports, and the candidates
    are none or several. *)
Definition prompting (ports : list Port) : Prop :=
  ports <> [] /\ length (candidates ports) <> 1%nat.

(** Opening the port [name] in the world [w]: what comes of it. *)
Definition opening (w : World) (name : str) : result (option Serial) :=
  if existsb (str_eqb name) (openable w)
  then Res (Ok (Some (mkSerial name))) (set_is_open true w)
         [ EOpen name 115200 1000 true;
           EPrint ((lit "Connected to " ++ name) ++ [LF]) false ]
  else Res (Ok None) w
         [ EOpen name 115200 1000 false;
           EPrint ((lit "Failed to connect to " ++ name ++ lit ": " ++ open_error w) ++ [LF]) false ].

(** [r] after the events [l]. *)
Definition after {A : Type} (l : list event) (r : result A) : result A :=
  Res (outcome_of r) (world_of r) (l ++ log_of r).

Definition is_open_event (e : event) : bool :=
  match e with EOpen _ _ _ _ => true | _ => false end.
Definition is_input_event (e : event) : bool :=
  match e with EInput _ => true | _ => false end.
Definition is_write_event (e : event) : bool :=
  match e with EWrite _ => true | _ => false end.
Definition is_close_event (e : event) : bool :=
  match e with EClose => true | _ => false end.

(** [s] is the keyword [k] in some letter case ([k] in capitals). *)
Definition is_keyword (k s : str) : Prop := map ascii_upper s = k.


(** The notice the Interactive Session prints when it catches an interrupt. *)
Definition notice_text : str := (LF :: lit "Exiting...") ++ [LF].

Definition is_notice (e : event) : bool :=
  match e with
  | EPrint t _ => str_eqb t notice_text
  | _ => false
  end.

Definition is_open_ok (e : event) : bool :=
  match e with EOpen _ _ _ ok => ok | _ => false end.

(** How many times the log shows the connection being closed. *)
Definition count_close (l : list event) : nat := length (filter is_close_event l).

(** An event that is neither a close nor the interrupt notice. *)
Definition tame (e : event) : bool := negb (is_close_event e) && negb (is_notice e).

(** A tame event that is not an attempt to open a port either. *)
Definition plain (e : event) : bool := tame e && negb (is_open_event e).

(** A result of a computation that leaves the connection as it is: its log
    is plain, the connection is open after it exactly when it was before, an
    interrupt that ends it has been consumed, it adds no line to standard
    input, and it has not run out of fuel. *)
Definition calm_at {A : Type} (w : World) (r : result A) : Prop :=
  forallb plain (log_of r) = true
  /\ is_open (world_of r) = is_open w
  /\ (outcome_of r = Raise KeyboardInterrupt -> sigint (world_of r) = None)
  /\ (length (stdin (world_of r)) <= length (stdin w))%nat
  /\ outcome_of r <> OutOfFuel.

Definition calm {A : Type} (m : M A) : Prop := forall w, calm_at w (m w).

(** What a call of [connect_to_device] leaves behind. *)
Definition connected {A : Type} (r : result (option A)) : Prop :=
  forallb tame (log_of r) = true
  /\ (outcome_of r = Raise KeyboardInterrupt -> sigint (world_of r) = None)
  /\ outcome_of r <> OutOfFuel
  /\ match outcome_of r with
     | Ok (Some _) => is_open (world_of r) = true
     | Ok None => existsb is_open_ok (log_of r) = false
     | _ => True
     end.



(** ** A test bench

    Ports and worlds on which the statements are evaluated.  Where the text
    involved is ASCII the interpreter's case mapping beyond ASCII is never
    consulted; [no_unicode] stands in for it. *)

Definition tilta_port : Port :=
  mkPort (lit "/dev/ttyACM0") (lit "Tilta Motor Control") (Some (lit "Straw Lab")).
Definition second_tilta_port : Port :=
  mkPort (lit "/dev/ttyACM1") (lit "Tilta Motor Control") None.
Definition other_port : Port :=
  mkPort (lit "/dev/ttyUSB0") (lit "FT232R USB UART") (Some (lit "FTDI")).

(** Every port of the machine opens; nothing is waiting; no connection yet. *)
Definition bench (lines : list str) (sig : option nat) (ports : list Port) : World :=
  mkWorld lines sig ports (map device ports) (lit "could not open port") false [].

(** The same with the connection already open. *)
Definition bench_open (lines : list str) (sig : option nat) : World :=
  mkWorld lines sig [tilta_port] [device tilta_port] (lit "could not open port") true [].

Definition no_unicode (s : str) : str := s.

Definition acm0 : Serial := mkSerial (lit "/dev/ttyACM0").

(** [k] is [l] with some elements left out. *)
Inductive subseq {A : Type} : list A -> list A -> Prop :=
| subseq_nil : subseq [] []
| subseq_keep (x : A) (k l : list A) : subseq k l -> subseq (x :: k) (x :: l)
| subseq_drop (x : A) (k l : list A) : subseq k l -> subseq k (x :: l).

(** ** Vocabulary of the further statements *)

(** [l1] is how [l2] starts. *)
Definition prefix {A : Type} (l1 l2 : list A) : Prop := exists t, l2 = l1 ++ t.

Definition event_eqb (a b : event) : bool :=
  match a, b with
  | EPrint t f, EPrint t' f' => str_eqb t t' && Bool.eqb f f'
  | EInput p, EInput p' => str_eqb p p'
  | EOpen p b t ok, EOpen p' b' t' ok' =>
    str_eqb p p' && (b =? b') && (t =? t') && Bool.eqb ok ok'
  | EWrite d, EWrite d' => str_eqb d d'
  | ERead d, ERead d' => str_eqb d d'
  | ESleep m, ESleep m' => m =? m'
  | EClose, EClose => true
  | EThreadStart, EThreadStart => true
  | _, _ => false
  end.

Fixpoint prefixb (l1 l2 : list event) : bool :=
  match l1, l2 with
  | [], _ => true
  | _ :: _, [] => false
  | a :: l1', b :: l2' => event_eqb a b && prefixb l1' l2'
  end.

(** What the reader thread may do: read, print with a flush, sleep 10 ms. *)
Definition reader_event (e : event) : bool :=
  match e with
  | ERead _ => true
  | EPrint _ fl => fl
  | ESleep ms => ms =? 10
  | _ => false
  end.

Definition is_sleep_event (e : event) : bool :=
  match e with ESleep _ => true | _ => false end.
Definition is_error_poll (p : poll) : bool :=
  match p with PollError => true | _ => false end.

(** A byte that can only continue a multi-byte form. *)
Definition is_continuation (b : Z) : Prop := 0x80 <= b < 0xC0.


(** A surrogate code point: the one kind UTF-8 does not carry. *)
Definition is_surrogate (c : Z) : Prop := 0xD800 <= c <= 0xDFFF.

(** What one turn of the Interactive Session logs for a line that does not
    end the loop. *)
Definition line_log (uu : str -> str) (line : str) : list event :=
  EInput [] ::
  (let cmd := strip line in
   if str_eqb (upper uu cmd) (lit "DEMO") then demo_log
   else if truthy cmd then
     match utf8_encode cmd with
     | Some bs => [EWrite (bs ++ [13; 10]); ESleep 100]
     | None => []
     end
   else []).

(** A line the loop gets past: not QUIT once stripped and upper-cased, and
    with a UTF-8 encoding. *)
Definition passes (uu : str -> str) (line : str) : Prop :=
  upper uu (strip line) <> lit "QUIT"
  /\ exists bs, utf8_encode (strip line) = Some bs.

(** The two lines [main] starts with. *)
Definition header : list event :=
  [ EPrint (lit "Tilta Nucleus Nano 2 Motor Control" ++ [LF]) false;
    EPrint (lit "===================================" ++ [LF]) false ].

(** The banner of the Interactive Session, and the start of the reader. *)
Definition banner : list event :=
  [ EPrint ((LF :: lit "=== INTERACTIVE MODE ===") ++ [LF]) false;
    EPrint (lit "Commands:" ++ [LF]) false;
    EPrint (lit "  POS <0-4095>  - Set motor position" ++ [LF]) false;
    EPrint (lit "  STATUS        - Get current status" ++ [LF]) false;
    EPrint (lit "  HELP          - Show device help" ++ [LF]) false;
    EPrint (lit "  DEMO          - Run demo sequence" ++ [LF]) false;
    EPrint (lit "  QUIT          - Exit" ++ [LF]) false;
    EPrint [LF] false;
    EThreadStart ].

(** What [main] does between a successful open and the session: the settle
    delay, then reading away whatever is waiting. *)
Definition settle (waiting : bytes) : list event :=
  ESleep 1000 :: (if truthy waiting then [ERead waiting] else []).

Definition farewell : list event :=
  [ EClose; EPrint (lit "Disconnected" ++ [LF]) false ].

(** The test [main] makes on its arguments. *)
Definition wants_demo (ul : str -> str) (argv : list str) : bool :=
  (1 <? length argv)%nat && str_eqb (lower ul (nth 1 argv [])) (lit "demo").






(** * Properties *)

(** ** Running the operations when no interrupt is pending *)

Section Run.

Variable w : World.
Hypothesis quiet : sigint w = None.

Lemma tick_quiet : tick w = Res (Ok tt) w [].
Proof. unfold tick. now rewrite quiet. Qed.

Lemma print_quiet (s : str) :
  print_ s w = Res (Ok tt) w [EPrint (s ++ [LF]) false].
Proof. unfold print_, bind. now rewrite tick_quiet. Qed.

Lemma sleep_quiet (ms : Z) : sleep ms w = Res (Ok tt) w [ESleep ms].
Proof. unfold sleep, bind. now rewrite tick_quiet. Qed.

Lemma thread_start_quiet : thread_start w = Res (Ok tt) w [EThreadStart].
Proof. unfold thread_start, bind. now rewrite tick_quiet. Qed.

Lemma list_comports_quiet : list_comports w = Res (Ok (comports w)) w [].
Proof. unfold list_comports, bind. now rewrite tick_quiet. Qed.

Lemma input_quiet (prompt line : str) (rest : list str) :
  stdin w = line :: rest ->
  input_ prompt w = Res (Ok line) (set_stdin rest w) [EInput prompt].
Proof.
  intros Hin. unfold input_, bind. rewrite tick_quiet. cbn. now rewrite Hin.
Qed.

Lemma input_eof (prompt : str) :
  stdin w = [] -> input_ prompt w = Res (Raise EOFError) w [EInput prompt].
Proof.
  intros Hin. unfold input_, bind. rewrite tick_quiet. cbn. now rewrite Hin.
Qed.

Lemma ser_write_quiet (ser : Serial) (data : bytes) :
  is_open w = true -> ser_write ser data w = Res (Ok tt) w [EWrite data].
Proof.
  intros Ho. unfold ser_write, require_open, bind. rewrite tick_quiet. cbn.
  now rewrite Ho.
Qed.

Lemma ser_close_quiet (ser : Serial) :
  is_open w = true ->
  ser_close ser w = Res (Ok tt) (set_is_open false w) [EClose].
Proof.
  intros Ho. unfold ser_close, bind. rewrite tick_quiet. cbn. now rewrite Ho.
Qed.

End Run.

(** [bind] once the first computation is known. *)
Lemma bind_ok {A B : Type} (m : M A) (k : A -> M B) (w w' : World) (a : A) (l : list event) :
  m w = Res (Ok a) w' l ->
  bind m k w = Res (outcome_of (k a w')) (world_of (k a w')) (l ++ log_of (k a w')).
Proof. intros H. unfold bind. now rewrite H. Qed.

Lemma bind_raise {A B : Type} (m : M A) (k : A -> M B) (w w' : World) (e : exn) (l : list event) :
  m w = Res (Raise e) w' l -> bind m k w = Res (Raise e) w' l.
Proof. intros H. unfold bind. now rewrite H. Qed.

Lemma result_eta {A : Type} (r : result A) :
  Res (outcome_of r) (world_of r) (log_of r) = r.
Proof. now destruct r. Qed.

(** ** UTF-8 *)

Lemma utf8_encode_app (a b : str) :
  utf8_encode (a ++ b) =
  match utf8_encode a, utf8_encode b with
  | Some x, Some y => Some (x ++ y)
  | _, _ => None
  end.
Proof.
  induction a as [|c a IH]; simpl.
  - now destruct (utf8_encode b).
  - rewrite IH. destruct (utf8_encode_char c) as [x|]; [|reflexivity].
    destruct (utf8_encode a) as [xs|]; [|reflexivity].
    destruct (utf8_encode b) as [y|]; [|reflexivity].
    now rewrite app_assoc.
Qed.

Lemma utf8_encode_crlf (t : str) (bs : bytes) :
  utf8_encode t = Some bs -> utf8_encode (t ++ [CR; LF]) = Some (bs ++ [13; 10]).
Proof. intros H. rewrite utf8_encode_app, H. reflexivity. Qed.

(** The bit operations of the codec, as arithmetic. *)

Lemma lor_disjoint (t x n : Z) :
  0 <= n -> 0 <= x < 2 ^ n -> Z.lor (Z.shiftl t n) x = t * 2 ^ n + x.
Proof.
  intros Hn Hx.
  assert (Hland : Z.land (Z.shiftl t n) x = 0).
  { apply Z.bits_inj'. intros i Hi. rewrite Z.land_spec, Z.bits_0.
    destruct (Z.ltb_spec i n).
    - rewrite Z.shiftl_spec_low by assumption. reflexivity.
    - rewrite <- (Z.mod_small x (2 ^ n)) by assumption.
      rewrite Z.mod_pow2_bits_high by lia. apply andb_false_r. }
  rewrite <- Z.lxor_lor by assumption.
  rewrite <- Z.add_nocarry_lxor by assumption.
  now rewrite Z.shiftl_mul_pow2.
Qed.

Lemma land_3F (b : Z) : Z.land b 0x3F = b mod 64.
Proof. change 0x3F with (Z.ones 6). now rewrite Z.land_ones. Qed.

Lemma land_1F (b : Z) : Z.land b 0x1F = b mod 32.
Proof. change 0x1F with (Z.ones 5). now rewrite Z.land_ones. Qed.

Lemma land_0F (b : Z) : Z.land b 0x0F = b mod 16.
Proof. change 0x0F with (Z.ones 4). now rewrite Z.land_ones. Qed.

Lemma land_07 (b : Z) : Z.land b 0x07 = b mod 8.
Proof. change 0x07 with (Z.ones 3). now rewrite Z.land_ones. Qed.

Lemma cp2_arith (b1 b2 : Z) : cp2 b1 b2 = (b1 mod 32) * 64 + b2 mod 64.
Proof.
  unfold cp2. rewrite land_1F, land_3F.
  rewrite (lor_disjoint _ _ 6); [reflexivity | lia |].
  change (2 ^ 6) with 64. apply Z.mod_pos_bound. lia.
Qed.

Lemma cp3_arith (b1 b2 b3 : Z) :
  cp3 b1 b2 b3 = (b1 mod 16) * 4096 + (b2 mod 64) * 64 + b3 mod 64.
Proof.
  unfold cp3. rewrite land_0F, !land_3F.
  rewrite (lor_disjoint (b2 mod 64) _ 6);
    [| lia | change (2 ^ 6) with 64; apply Z.mod_pos_bound; lia].
  rewrite (lor_disjoint _ _ 12); [change (2 ^ 6) with 64; change (2 ^ 12) with 4096; lia | lia |].
  change (2 ^ 6) with 64. change (2 ^ 12) with 4096.
  pose proof (Z.mod_pos_bound b2 64). pose proof (Z.mod_pos_bound b3 64). lia.
Qed.

Lemma cp4_arith (b1 b2 b3 b4 : Z) :
  cp4 b1 b2 b3 b4
  = (b1 mod 8) * 262144 + (b2 mod 64) * 4096 + (b3 mod 64) * 64 + b4 mod 64.
Proof.
  unfold cp4. rewrite land_07, !land_3F.
  pose proof (Z.mod_pos_bound b2 64). pose proof (Z.mod_pos_bound b3 64).
  pose proof (Z.mod_pos_bound b4 64).
  rewrite (lor_disjoint (b3 mod 64) _ 6); [| lia | change (2 ^ 6) with 64; lia].
  change (2 ^ 6) with 64.
  rewrite (lor_disjoint (b2 mod 64) _ 12); [| lia | change (2 ^ 12) with 4096; lia].
  change (2 ^ 12) with 4096.
  rewrite (lor_disjoint _ _ 18); [change (2 ^ 18) with 262144; lia | lia |].
  change (2 ^ 18) with 262144. lia.
Qed.

Lemma lor_80 (x : Z) : 0 <= x < 64 -> Z.lor 0x80 x = 128 + x.
Proof.
  intros H. change 0x80 with (Z.shiftl 2 6). rewrite lor_disjoint; [reflexivity | lia |].
  change (2 ^ 6) with 64. lia.
Qed.

Lemma lor_C0 (x : Z) : 0 <= x < 32 -> Z.lor 0xC0 x = 192 + x.
Proof.
  intros H. change 0xC0 with (Z.shiftl 6 5). rewrite lor_disjoint; [reflexivity | lia |].
  change (2 ^ 5) with 32. lia.
Qed.

Lemma lor_E0 (x : Z) : 0 <= x < 16 -> Z.lor 0xE0 x = 224 + x.
Proof.
  intros H. change 0xE0 with (Z.shiftl 14 4). rewrite lor_disjoint; [reflexivity | lia |].
  change (2 ^ 4) with 16. lia.
Qed.

Lemma lor_F0 (x : Z) : 0 <= x < 8 -> Z.lor 0xF0 x = 240 + x.
Proof.
  intros H. change 0xF0 with (Z.shiftl 30 3). rewrite lor_disjoint; [reflexivity | lia |].
  change (2 ^ 3) with 8. lia.
Qed.

Ltac euclid := Z.to_euclidean_division_equations; lia.

(** The four forms of [utf8_encode_char]. *)
Lemma encode_char_1 (c : Z) : 0 <= c < 0x80 -> utf8_encode_char c = Some [c].
Proof.
  intros H. unfold utf8_encode_char.
  destruct (Z.ltb_spec c 0); [lia|]. destruct (Z.ltb_spec c 0x80); [reflexivity | lia].
Qed.

Lemma encode_char_2 (c : Z) :
  0x80 <= c < 0x800 -> utf8_encode_char c = Some [192 + c / 64; 128 + c mod 64].
Proof.
  intros H. unfold utf8_encode_char.
  destruct (Z.ltb_spec c 0); [lia|]. destruct (Z.ltb_spec c 0x80); [lia|].
  destruct (Z.ltb_spec c 0x800); [|lia].
  rewrite land_3F, (Z.shiftr_div_pow2 c 6) by lia. change (2 ^ 6) with 64.
  rewrite lor_C0, lor_80 by euclid. reflexivity.
Qed.

Lemma encode_char_3 (c : Z) :
  0x800 <= c < 0x10000 -> ~ (0xD800 <= c <= 0xDFFF) ->
  utf8_encode_char c
  = Some [224 + c / 4096; 128 + (c / 64) mod 64; 128 + c mod 64].
Proof.
  intros H Hs. unfold utf8_encode_char.
  destruct (Z.ltb_spec c 0); [lia|]. destruct (Z.ltb_spec c 0x80); [lia|].
  destruct (Z.ltb_spec c 0x800); [lia|].
  destruct (Z.leb_spec 0xD800 c); destruct (Z.leb_spec c 0xDFFF); cbn [andb]; try lia;
    (destruct (Z.ltb_spec c 0x10000); [|lia]);
    rewrite !land_3F, (Z.shiftr_div_pow2 c 6), (Z.shiftr_div_pow2 c 12) by lia;
    change (2 ^ 6) with 64; change (2 ^ 12) with 4096;
    rewrite lor_E0, !lor_80 by euclid; reflexivity.
Qed.

Lemma encode_char_4 (c : Z) :
  0x10000 <= c <= 0x10FFFF ->
  utf8_encode_char c
  = Some [240 + c / 262144; 128 + (c / 4096) mod 64; 128 + (c / 64) mod 64; 128 + c mod 64].
Proof.
  intros H. unfold utf8_encode_char.
  destruct (Z.ltb_spec c 0); [lia|]. destruct (Z.ltb_spec c 0x80); [lia|].
  destruct (Z.ltb_spec c 0x800); [lia|].
  destruct (Z.leb_spec 0xD800 c); destruct (Z.leb_spec c 0xDFFF); cbn [andb]; try lia.
  destruct (Z.ltb_spec c 0x10000); [lia|]. destruct (Z.leb_spec c 0x10FFFF); [|lia].
  rewrite !land_3F, (Z.shiftr_div_pow2 c 6), (Z.shiftr_div_pow2 c 12),
    (Z.shiftr_div_pow2 c 18) by lia.
  change (2 ^ 6) with 64. change (2 ^ 12) with 4096. change (2 ^ 18) with 262144.
  rewrite lor_F0, !lor_80 by euclid. reflexivity.
Qed.

Ltac split_tests :=
  repeat (match goal with
          | |- context [?a <? ?b] => destruct (Z.ltb_spec a b); try (exfalso; euclid)
          | |- context [?a <=? ?b] => destruct (Z.leb_spec a b); try (exfalso; euclid)
          | |- context [?a =? ?b] => destruct (Z.eqb_spec a b); try (exfalso; euclid)
          end; cbn [andb orb negb]).

(** Decides the test at the head of the goal, and only that one. *)
Ltac head_tests :=
  repeat (match goal with
          | |- (if ?t then _ else _) = _ =>
            match t with
            | context [?a <? ?b] => destruct (Z.ltb_spec a b); try (exfalso; euclid)
            | context [?a <=? ?b] => destruct (Z.leb_spec a b); try (exfalso; euclid)
            | context [?a =? ?b] => destruct (Z.eqb_spec a b); try (exfalso; euclid)
            end
          end; cbn [andb orb negb]).

Lemma encode_char_cases (c : Z) (b : bytes) :
  utf8_encode_char c = Some b ->
  (0 <= c < 0x80 /\ b = [c])
  \/ (0x80 <= c < 0x800 /\ b = [192 + c / 64; 128 + c mod 64])
  \/ (0x800 <= c < 0x10000 /\ ~ (0xD800 <= c <= 0xDFFF)
      /\ b = [224 + c / 4096; 128 + (c / 64) mod 64; 128 + c mod 64])
  \/ (0x10000 <= c <= 0x10FFFF
      /\ b = [240 + c / 262144; 128 + (c / 4096) mod 64; 128 + (c / 64) mod 64;
              128 + c mod 64]).
Proof.
  intros H.
  destruct (Z.ltb_spec c 0) as [H0|H0].
  { unfold utf8_encode_char in H. destruct (Z.ltb_spec c 0); [discriminate | lia]. }
  destruct (Z.ltb_spec c 0x80).
  { left. rewrite encode_char_1 in H by lia. injection H as <-. split; [lia | reflexivity]. }
  destruct (Z.ltb_spec c 0x800).
  { right; left. rewrite encode_char_2 in H by lia. injection H as <-.
    split; [lia | reflexivity]. }
  destruct (Z.ltb_spec c 0x10000).
  { right; right; left.
    assert (Hs : ~ (0xD800 <= c <= 0xDFFF)).
    { intros Hs. unfold utf8_encode_char in H. revert H. split_tests. discriminate. }
    rewrite encode_char_3 in H by (assumption || lia). injection H as <-.
    repeat split; [lia | lia | assumption]. }
  destruct (Z.leb_spec c 0x10FFFF).
  { right; right; right. rewrite encode_char_4 in H by lia. injection H as <-.
    split; [lia | reflexivity]. }
  exfalso. unfold utf8_encode_char in H. revert H. split_tests. discriminate.
Qed.

(** The texts that encode are those made of scalar values. *)
Lemma encode_char_scalar (c : Z) :
  is_scalar c -> exists b, utf8_encode_char c = Some b.
Proof.
  unfold is_scalar. intros Hc.
  destruct (Z.ltb_spec c 0x80); [rewrite encode_char_1 by lia; eauto|].
  destruct (Z.ltb_spec c 0x800); [rewrite encode_char_2 by lia; eauto|].
  destruct (Z.ltb_spec c 0x10000); [rewrite encode_char_3 by lia; eauto|].
  rewrite encode_char_4 by lia; eauto.
Qed.

Lemma encode_scalars (s : str) :
  Forall is_scalar s -> exists bs, utf8_encode s = Some bs.
Proof.
  induction 1 as [|c s Hc _ [bs IH]]; cbn [utf8_encode]; [eauto|].
  destruct (encode_char_scalar c Hc) as [b ->]. rewrite IH. eauto.
Qed.

(** Decoding what [utf8_encode_char] produced gives the code point back,
    whatever the error handler. *)
Lemma decode_encoded_char (repl : str) (c : Z) (b rest : bytes) :
  utf8_encode_char c = Some b ->
  utf8_decode repl (b ++ rest) = c :: utf8_decode repl rest.
Proof.
  intros H. apply encode_char_cases in H.
  destruct H as [[Hc ->] | [[Hc ->] | [[Hc [Hs ->]] | [Hc ->]]]]; cbn [app].
  - cbn [utf8_decode]. head_tests. reflexivity.
  - remember (_ :: rest) as r1 eqn:E1 in |- *.
    cbn [utf8_decode]. head_tests. subst r1. cbv beta iota.
    unfold is_cont. head_tests. f_equal. rewrite cp2_arith. euclid.
  - remember (_ :: rest) as r2 eqn:E2 in |- *.
    remember (_ :: r2) as r1 eqn:E1 in |- *.
    cbn [utf8_decode]. head_tests. subst r1. cbv beta iota.
    unfold bad2_of3, is_cont. head_tests; subst r2; cbv beta iota; head_tests;
      f_equal; rewrite cp3_arith; euclid.
  - remember (_ :: rest) as r3 eqn:E3 in |- *.
    remember (_ :: r3) as r2 eqn:E2 in |- *.
    remember (_ :: r2) as r1 eqn:E1 in |- *.
    cbn [utf8_decode]. head_tests. subst r1. cbv beta iota.
    unfold bad2_of4, is_cont. head_tests; subst r2; cbv beta iota; head_tests;
      subst r3; cbv beta iota; head_tests; f_equal; rewrite cp4_arith; euclid.
Qed.

Lemma decode_encoded (repl : str) (s : str) :
  forall bs, utf8_encode s = Some bs -> utf8_decode repl bs = s.
Proof.
  induction s as [|c s IH]; intros bs H; cbn in H.
  - now injection H as <-.
  - destruct (utf8_encode_char c) as [b|] eqn:Ec; [|discriminate].
    destruct (utf8_encode s) as [bs'|] eqn:Es; [|discriminate].
    injection H as <-. rewrite (decode_encoded_char repl c b bs' Ec).
    now rewrite (IH bs' eq_refl).
Qed.

(** Encoding what the decoder accepted gives the bytes back. *)
Lemma encode_decoded_2 (b1 b2 : Z) :
  0xC2 <= b1 < 0xE0 -> is_cont b2 = true ->
  utf8_encode_char (cp2 b1 b2) = Some [b1; b2].
Proof.
  unfold is_cont. intros H1 H2. apply andb_true_iff in H2.
  rewrite Z.leb_le, Z.ltb_lt in H2.
  rewrite cp2_arith, encode_char_2 by euclid.
  f_equal. f_equal; [euclid | f_equal; euclid].
Qed.

Lemma encode_decoded_3 (b1 b2 b3 : Z) :
  0xE0 <= b1 < 0xF0 -> bad2_of3 b1 b2 = false -> is_cont b3 = true ->
  utf8_encode_char (cp3 b1 b2 b3) = Some [b1; b2; b3].
Proof.
  unfold bad2_of3, is_cont. intros H1 H2 H3.
  apply andb_true_iff in H3. rewrite Z.leb_le, Z.ltb_lt in H3.
  apply orb_false_iff in H2. destruct H2 as [H2 H2'].
  apply negb_false_iff, andb_true_iff in H2. rewrite Z.leb_le, Z.ltb_lt in H2.
  assert (Hb : (b2 < 0xA0 /\ b1 <> 0xE0) \/ (0xA0 <= b2 /\ b1 <> 0xED)).
  { destruct (Z.ltb_spec b2 0xA0); [left | right];
      (split; [assumption | now apply Z.eqb_neq]). }
  rewrite cp3_arith, encode_char_3 by euclid.
  f_equal. f_equal; [euclid | f_equal; [euclid | f_equal; euclid]].
Qed.

Lemma encode_decoded_4 (b1 b2 b3 b4 : Z) :
  0xF0 <= b1 < 0xF5 -> bad2_of4 b1 b2 = false ->
  is_cont b3 = true -> is_cont b4 = true ->
  utf8_encode_char (cp4 b1 b2 b3 b4) = Some [b1; b2; b3; b4].
Proof.
  unfold bad2_of4, is_cont. intros H1 H2 H3 H4.
  apply andb_true_iff in H3, H4. rewrite Z.leb_le, Z.ltb_lt in H3, H4.
  apply orb_false_iff in H2. destruct H2 as [H2 H2'].
  apply negb_false_iff, andb_true_iff in H2. rewrite Z.leb_le, Z.ltb_lt in H2.
  assert (Hb : (b2 < 0x90 /\ b1 <> 0xF0) \/ (0x90 <= b2 /\ b1 <> 0xF4)).
  { destruct (Z.ltb_spec b2 0x90); [left | right];
      (split; [assumption | now apply Z.eqb_neq]). }
  rewrite cp4_arith, encode_char_4 by euclid.
  f_equal. f_equal; [euclid | f_equal; [euclid | f_equal; [euclid | f_equal; euclid]]].
Qed.

Lemma subseq_nil_l {A : Type} (l : list A) : subseq [] l.
Proof. induction l; constructor; assumption. Qed.

(** With [errors='ignore'] the decoder only leaves bytes out: encoding its
    result gives back a subsequence of the bytes it read. *)
Lemma decode_ignore_keeps (n : nat) :
  forall bs : bytes, (length bs <= n)%nat -> Forall is_byte bs ->
  exists kept, utf8_encode (decode_ignore bs) = Some kept /\ subseq kept bs.
Proof.
  unfold decode_ignore.
  induction n as [|n IH]; intros bs Hlen Hb.
  { destruct bs; [| cbn in Hlen; lia]. exists []. split; [reflexivity | constructor]. }
  assert (Hdrop : forall x t, (length t <= n)%nat -> Forall is_byte t ->
            exists kept, utf8_encode (utf8_decode [] t) = Some kept /\ subseq kept (x :: t)).
  { intros x t Ht Hbt. destruct (IH t Ht Hbt) as (k & Hk & Hs).
    exists k. split; [assumption | now constructor]. }
  assert (Hnone : forall l : bytes,
            exists kept, utf8_encode [] = Some kept /\ subseq kept l).
  { intros l. exists []. split; [reflexivity | apply subseq_nil_l]. }
  destruct bs as [|b1 r1]; [apply Hnone|].
  inversion Hb as [|? ? Hb1 Hr1]; subst. cbn [length] in Hlen. unfold is_byte in Hb1.
  cbn [utf8_decode].
  destruct (Z.ltb_spec b1 0x80).
  { destruct (IH r1 ltac:(lia) Hr1) as (k & Hk & Hs).
    exists (b1 :: k). cbn [utf8_encode]. rewrite encode_char_1, Hk by lia.
    split; [reflexivity | now constructor]. }
  destruct (Z.ltb_spec b1 0xC2); [apply Hdrop; [lia | assumption]|].
  destruct (Z.ltb_spec b1 0xE0).
  { destruct r1 as [|b2 r2]; [apply Hnone|].
    inversion Hr1 as [|? ? Hb2 Hr2]; subst. cbn [length] in Hlen.
    destruct (is_cont b2) eqn:C2; [| apply Hdrop; [cbn [length]; lia | assumption]].
    destruct (IH r2 ltac:(lia) Hr2) as (k & Hk & Hs).
    exists (b1 :: b2 :: k). cbn [utf8_encode].
    rewrite encode_decoded_2, Hk by (assumption || lia).
    split; [reflexivity | now repeat constructor]. }
  destruct (Z.ltb_spec b1 0xF0).
  { destruct r1 as [|b2 r2]; [apply Hnone|].
    inversion Hr1 as [|? ? Hb2 Hr2]; subst. cbn [length] in Hlen.
    destruct (bad2_of3 b1 b2) eqn:B2; [apply Hdrop; [cbn [length]; lia | assumption]|].
    destruct r2 as [|b3 r3]; [apply Hnone|].
    inversion Hr2 as [|? ? Hb3 Hr3]; subst. cbn [length] in Hlen.
    destruct (is_cont b3) eqn:C3.
    - destruct (IH r3 ltac:(lia) Hr3) as (k & Hk & Hs).
      exists (b1 :: b2 :: b3 :: k). cbn [utf8_encode].
      rewrite encode_decoded_3, Hk by (assumption || lia).
      split; [reflexivity | now repeat constructor].
    - destruct (Hdrop b2 (b3 :: r3) ltac:(cbn [length]; lia) Hr2) as (k & Hk & Hs).
      exists k. split; [assumption | now constructor]. }
  destruct (Z.ltb_spec b1 0xF5); [| apply Hdrop; [lia | assumption]].
  destruct r1 as [|b2 r2]; [apply Hnone|].
  inversion Hr1 as [|? ? Hb2 Hr2]; subst. cbn [length] in Hlen.
  destruct (bad2_of4 b1 b2) eqn:B2; [apply Hdrop; [cbn [length]; lia | assumption]|].
  destruct r2 as [|b3 r3]; [apply Hnone|].
  inversion Hr2 as [|? ? Hb3 Hr3]; subst. cbn [length] in Hlen.
  destruct (is_cont b3) eqn:C3; cbn [negb].
  - destruct r3 as [|b4 r4]; [apply Hnone|].
    inversion Hr3 as [|? ? Hb4 Hr4]; subst. cbn [length] in Hlen.
    destruct (is_cont b4) eqn:C4.
    + destruct (IH r4 ltac:(lia) Hr4) as (k & Hk & Hs).
      exists (b1 :: b2 :: b3 :: b4 :: k). cbn [utf8_encode].
      rewrite encode_decoded_4, Hk by (assumption || lia).
      split; [reflexivity | now repeat constructor].
    + destruct (Hdrop b3 (b4 :: r4) ltac:(cbn [length]; lia) Hr3) as (k & Hk & Hs).
      exists k. split; [assumption | do 2 apply subseq_drop; exact Hs].
  - destruct (Hdrop b2 (b3 :: r3) ltac:(cbn [length]; lia) Hr2) as (k & Hk & Hs).
    exists k. split; [assumption | now constructor].
Qed.

(** ** The Command Sender *)

Lemma send_command_quiet (ser : Serial) (T : str) (bs : bytes) (w : World) :
  sigint w = None -> is_open w = true ->
  utf8_encode T = Some bs ->
  send_command ser T w = Res (Ok tt) w [EWrite (bs ++ [13; 10]); ESleep 100].
Proof.
  intros Hq Ho He. unfold send_command, encode.
  rewrite (utf8_encode_crlf _ _ He).
  unfold bind at 1. cbn.
  rewrite (bind_ok _ _ _ _ _ _ (ser_write_quiet w Hq ser _ Ho)).
  now rewrite sleep_quiet.
Qed.

(** A text that holds a lone surrogate has no UTF-8 encoding: the call
    raises before anything is written. *)
Lemma send_command_unencodable (ser : Serial) (T : str) (w : World) :
  utf8_encode T = None ->
  send_command ser T w = Res (Raise UnicodeEncodeError) w [].
Proof.
  intros He. unfold send_command, encode. rewrite utf8_encode_app, He.
  reflexivity.
Qed.

(** C1. For every text [T] that is a sequence of Unicode scalar values (the
    texts that have a UTF-8 encoding: no surrogate code point), on an open
    connection and with no interrupt pending, [send_command] makes one write
    of the UTF-8 encoding of [T] followed by CR LF, and then sleeps 100 ms;
    it does nothing else.  The bytes before CR LF are those of [T] and
    nothing but them: decoded, they give [T] back. *)
Theorem send_command_wire (ser : Serial) (T : str) (w : World) :
  sigint w = None -> is_open w = true ->
  Forall is_scalar T ->
  exists bs : bytes,
    utf8_encode T = Some bs
    /\ decode_ignore bs = T
    /\ send_command ser T w = Res (Ok tt) w [EWrite (bs ++ [13; 10]); ESleep 100].
Proof.
  intros Hq Ho Hs. destruct (encode_scalars T Hs) as [bs He].
  exists bs. split; [exact He | split].
  - apply decode_encoded. exact He.
  - now apply send_command_quiet.
Qed.

Lemma send_command_wire_witness :
  exists bs : bytes,
    utf8_encode (lit "pos 10") = Some bs
    /\ decode_ignore bs = lit "pos 10"
    /\ send_command (mkSerial (lit "/dev/ttyACM0")) (lit "pos 10")
         (mkWorld [] None [] [] [] true [])
       = Res (Ok tt) (mkWorld [] None [] [] [] true [])
           [EWrite (bs ++ [13; 10]); ESleep 100].
Proof.
  apply (send_command_wire (mkSerial (lit "/dev/ttyACM0")) (lit "pos 10")
           (mkWorld [] None [] [] [] true []) eq_refl eq_refl).
  repeat constructor; unfold is_scalar; cbn; lia.
Defined.

(** ** The Demo Sequence *)

Lemma demo_mode_quiet (ser : Serial) (w : World) :
  sigint w = None -> is_open w = true ->
  demo_mode ser w = Res (Ok tt) w demo_log.
Proof.
  intros Hq Ho. destruct w as [i s c o e op b]. cbn in Hq, Ho. subst s op.
  vm_compute. reflexivity.
Qed.

(** C2. On an open connection and with no interrupt pending, every run of
    [demo_mode] does exactly this, in this order: two header lines; then,
    six times, the label of the step, the command [POS n] with CR LF, the
    100 ms of the Command Sender and a pause of 2000 ms, for
    n = 0, 1024, 2048, 3072, 4095, 2048; then the closing line. *)
Theorem demo_mode_sequence (ser : Serial) (w : World) :
  sigint w = None -> is_open w = true ->
  demo_mode ser w =
  Res (Ok tt) w
    [ EPrint (LF :: lit "=== DEMO MODE ===" ++ [LF]) false;
      EPrint (lit "Running motor demo sequence..." ++ [LF]) false;
      EPrint (LF :: lit "Minimum position..." ++ [LF]) false;
      EWrite (lit "POS 0" ++ [13; 10]); ESleep 100; ESleep 2000;
      EPrint (LF :: lit "Quarter position..." ++ [LF]) false;
      EWrite (lit "POS 1024" ++ [13; 10]); ESleep 100; ESleep 2000;
      EPrint (LF :: lit "Center position..." ++ [LF]) false;
      EWrite (lit "POS 2048" ++ [13; 10]); ESleep 100; ESleep 2000;
      EPrint (LF :: lit "Three-quarter position..." ++ [LF]) false;
      EWrite (lit "POS 3072" ++ [13; 10]); ESleep 100; ESleep 2000;
      EPrint (LF :: lit "Maximum position..." ++ [LF]) false;
      EWrite (lit "POS 4095" ++ [13; 10]); ESleep 100; ESleep 2000;
      EPrint (LF :: lit "Back to center..." ++ [LF]) false;
      EWrite (lit "POS 2048" ++ [13; 10]); ESleep 100; ESleep 2000;
      EPrint (LF :: lit "Demo complete!" ++ [LF]) false ].
Proof.
  intros Hq Ho. rewrite (demo_mode_quiet ser w Hq Ho). reflexivity.
Qed.

Lemma demo_mode_sequence_witness :
  log_of (demo_mode (mkSerial (lit "/dev/ttyACM0")) (mkWorld [] None [] [] [] true []))
  = demo_log.
Proof.
  rewrite (demo_mode_sequence (mkSerial (lit "/dev/ttyACM0"))
             (mkWorld [] None [] [] [] true []) eq_refl eq_refl).
  reflexivity.
Defined.

(** ** The Port Enumerator *)

Lemma startswith_spec (p s : str) :
  startswith p s = true <-> exists post, s = p ++ post.
Proof.
  revert s. induction p as [|x p IH]; intros s; simpl.
  - split; [intros _; now exists s | reflexivity].
  - destruct s as [|y s].
    + split; [discriminate | intros [post H]; discriminate].
    + rewrite andb_true_iff, Z.eqb_eq, IH. split.
      * intros [-> [post ->]]. now exists post.
      * intros [post H]. injection H as -> ->. split; [reflexivity | now exists post].
Qed.

Lemma contains_spec (needle hay : str) :
  contains needle hay = true <-> substring needle hay.
Proof.
  unfold substring. induction hay as [|y hay IH].
  - simpl. rewrite orb_false_r, startswith_spec. split.
    + intros [post H]. exists [], post. exact H.
    + intros [pre [post H]]. destruct pre; [now exists post | discriminate].
  - cbn [contains]. rewrite orb_true_iff, startswith_spec, IH. split.
    + intros [[post H] | [pre [post H]]].
      * exists [], post. exact H.
      * exists (y :: pre), post. simpl. now rewrite H.
    + intros [pre [post H]]. destruct pre as [|z pre].
      * left. now exists post.
      * right. injection H as _ H. now exists pre, post.
Qed.

Lemma is_candidate_spec (p : Port) :
  is_candidate p = true <->
  substring (lit "Tilta Motor Control") (description p)
  \/ exists m, manufacturer p = Some m /\ substring (lit "Straw Lab") m.
Proof.
  unfold is_candidate. rewrite orb_true_iff, !contains_spec.
  destruct (manufacturer p) as [m|]; simpl.
  - split; (intros [H|H]; [now left | right]).
    + now exists m.
    + destruct H as [m' [E H]]. now injection E as <-.
  - split; (intros [H|H]; [now left | exfalso]).
    + apply contains_spec in H. discriminate.
    + destruct H as [m' [E _]]. discriminate.
Qed.

Lemma list_devices_loop_quiet (w : World) (ports : list Port) :
  sigint w = None ->
  forall (i : nat) (acc : list Port),
  for_enumerate_acc i ports
    (fun i p devices =>
       print_ (str_of_nat i ++ lit ": " ++ device p ++ lit " - " ++ description p) ;;
       if is_candidate p then ret (devices ++ [p]) else ret devices)
    acc w
  = Res (Ok (acc ++ filter is_candidate ports)) w (map port_line (enumerate i ports)).
Proof.
  intros Hq. induction ports as [|p ports IH]; intros i acc; simpl.
  - unfold ret. now rewrite app_nil_r.
  - assert (Hbody :
      (print_ (str_of_nat i ++ lit ": " ++ device p ++ lit " - " ++ description p) ;;
       if is_candidate p then ret (acc ++ [p]) else ret acc) w
      = Res (Ok (if is_candidate p then acc ++ [p] else acc)) w [port_line (i, p)]).
    { rewrite (bind_ok _ _ _ _ _ _ (print_quiet w Hq _)).
      unfold port_line. cbn [fst snd]. rewrite <- !app_assoc.
      now destruct (is_candidate p). }
    rewrite (bind_ok _ _ _ _ _ _ Hbody), IH. cbn.
    destruct (is_candidate p); [rewrite <- app_assoc|]; reflexivity.
Qed.

Lemma list_devices_quiet (w : World) :
  sigint w = None ->
  list_devices w
  = Res (Ok (comports w, filter is_candidate (comports w))) w (listing (comports w)).
Proof.
  intros Hq. unfold list_devices.
  rewrite (bind_ok _ _ _ _ _ _ (list_comports_quiet w Hq)).
  rewrite (bind_ok _ _ _ _ _ _ (list_devices_loop_quiet w (comports w) Hq 0%nat [])).
  cbn. now rewrite app_nil_r.
Qed.

(** C9. With no interrupt pending, [list_devices] prints one numbered line
    per port and returns the full port list in its order together with the
    ports that pass the test, in the same order; a port passes exactly when
    its description contains [Tilta Motor Control] or it has a manufacturer
    that contains [Straw Lab]; the match is on the exact letters, so the
    same words in lower case do not pass. *)
Theorem list_devices_classifies (w : World) :
  sigint w = None ->
  list_devices w
  = Res (Ok (comports w, filter is_candidate (comports w))) w (listing (comports w))
  /\ (forall p : Port,
        In p (filter is_candidate (comports w)) <->
        In p (comports w)
        /\ (substring (lit "Tilta Motor Control") (description p)
            \/ exists m, manufacturer p = Some m /\ substring (lit "Straw Lab") m))
  /\ (forall d : str,
        is_candidate (mkPort d (lit "tilta motor control") (Some (lit "straw lab"))) = false).
Proof.
  intros Hq. split; [now apply list_devices_quiet | split].
  - intros p. rewrite filter_In, is_candidate_spec. reflexivity.
  - intros d. reflexivity.
Qed.

Lemma list_devices_classifies_witness :
  let w := mkWorld [] None
             [ mkPort (lit "/dev/ttyUSB0") (lit "FT232R USB UART") (Some (lit "FTDI"));
               mkPort (lit "/dev/ttyACM0") (lit "Tilta Motor Control") None;
               mkPort (lit "/dev/ttyACM1") (lit "n/a") (Some (lit "Straw Lab")) ]
             [] [] false [] in
  outcome_of (list_devices w)
  = Ok (comports w,
        [ mkPort (lit "/dev/ttyACM0") (lit "Tilta Motor Control") None;
          mkPort (lit "/dev/ttyACM1") (lit "n/a") (Some (lit "Straw Lab")) ]).
Proof.
  intros w. rewrite (proj1 (list_devices_classifies w eq_refl)). reflexivity.
Defined.

(** ** The Reader Loop *)

(** C4. Each chunk of bytes the Reader Loop reads is decoded as UTF-8 with
    the bytes that do not decode left out (never replaced, and the decoding
    never fails), and the text is printed at once, without a line end and
    with a flush, before the 10 ms pause.  Leaving out is all the decoder
    does to the bytes: the text it gives encodes to a subsequence of the
    chunk; and a chunk that is the encoding of a text gives that text. *)
Theorem read_responses_decodes (chunk : bytes) (rest : list poll) :
  read_responses (PollData chunk :: rest)
  = ERead chunk :: EPrint (decode_ignore chunk) true :: ESleep 10 :: read_responses rest
  /\ (Forall is_byte chunk ->
      exists kept, utf8_encode (decode_ignore chunk) = Some kept /\ subseq kept chunk)
  /\ (forall s : str, utf8_encode s = Some chunk -> decode_ignore chunk = s).
Proof.
  split; [reflexivity | split].
  - apply (decode_ignore_keeps (length chunk)). lia.
  - intros s. apply decode_encoded.
Qed.

(** ** Symbolic execution

    A computation is run on a world by composing the equations of its
    parts; [run] does so along the syntax of the computation and stops with
    a failure where it cannot decide a test. *)

Lemma bind_run {A B : Type} (m : M A) (k : A -> M B) (w w1 w2 : World)
    (a : A) (o : outcome B) (l1 l2 : list event) :
  m w = Res (Ok a) w1 l1 -> k a w1 = Res o w2 l2 ->
  bind m k w = Res o w2 (l1 ++ l2).
Proof. intros H1 H2. unfold bind. rewrite H1. cbn. now rewrite H2. Qed.

Lemma try_run_ok {A : Type} (m : M A) h (w w1 : World) (a : A) (l1 : list event) :
  m w = Res (Ok a) w1 l1 -> try_except m h w = Res (Ok a) w1 l1.
Proof. intros H. unfold try_except. now rewrite H. Qed.

Lemma try_run_handled {A : Type} (m : M A) h (hh : M A) (w w1 w2 : World)
    (e : exn) (o : outcome A) (l1 l2 : list event) :
  m w = Res (Raise e) w1 l1 -> h e = Some hh -> hh w1 = Res o w2 l2 ->
  try_except m h w = Res o w2 (l1 ++ l2).
Proof. intros H1 H2 H3. unfold try_except. rewrite H1. cbn. now rewrite H2, H3. Qed.

Lemma try_run_pass {A : Type} (m : M A) h (w w1 : World) (e : exn) (l1 : list event) :
  m w = Res (Raise e) w1 l1 -> h e = None ->
  try_except m h w = Res (Raise e) w1 l1.
Proof. intros H1 H2. unfold try_except. rewrite H1. cbn. now rewrite H2. Qed.

Lemma serial_open_ok (w : World) (name : str) (baud t : Z) :
  sigint w = None -> existsb (str_eqb name) (openable w) = true ->
  serial_open name baud t w
  = Res (Ok (mkSerial name)) (set_is_open true w) [EOpen name baud t true].
Proof.
  intros Hq Ho. unfold serial_open, bind. rewrite (tick_quiet w Hq). cbn.
  now rewrite Ho.
Qed.

Lemma serial_open_fails (w : World) (name : str) (baud t : Z) :
  sigint w = None -> existsb (str_eqb name) (openable w) = false ->
  serial_open name baud t w
  = Res (Raise (SerialException (open_error w))) w [EOpen name baud t false].
Proof.
  intros Hq Ho. unfold serial_open, bind. rewrite (tick_quiet w Hq). cbn.
  now rewrite Ho.
Qed.

Lemma ser_in_waiting_quiet (w : World) (ser : Serial) :
  sigint w = None -> is_open w = true ->
  ser_in_waiting ser w = Res (Ok (length (in_buf w))) w [].
Proof.
  intros Hq Ho. unfold ser_in_waiting, require_open, bind. rewrite (tick_quiet w Hq).
  cbn. now rewrite Ho.
Qed.

Lemma ser_read_quiet (w : World) (ser : Serial) (n : nat) :
  sigint w = None -> is_open w = true ->
  ser_read ser n w
  = Res (Ok (firstn n (in_buf w))) (set_in_buf (skipn n (in_buf w)) w)
      [ERead (firstn n (in_buf w))].
Proof.
  intros Hq Ho. unfold ser_read, require_open, bind. rewrite (tick_quiet w Hq).
  cbn. now rewrite Ho.
Qed.

Lemma for_enumerate_print_quiet {A : Type} (w : World) (f : nat -> A -> str) (l : list A) :
  sigint w = None ->
  forall i : nat,
  for_enumerate i l (fun i x => print_ (f i x)) w
  = Res (Ok tt) w (map (fun ix => EPrint (f (fst ix) (snd ix) ++ [LF]) false) (enumerate i l)).
Proof.
  intros Hq. induction l as [|x l IH]; intros i; [reflexivity|].
  cbn [for_enumerate]. apply (bind_run _ _ _ _ _ _ _ _ _ (print_quiet w Hq _) (IH (S i))).
Qed.

Arguments lit : simpl never.
Arguments str_of_Z : simpl never.
Arguments str_of_nat : simpl never.
Arguments bind : simpl never.
Arguments try_except : simpl never.
Arguments ret : simpl never.
Arguments raise : simpl never.
Arguments print_ : simpl never.
Arguments input_ : simpl never.
Arguments sleep : simpl never.
Arguments serial_open : simpl never.
Arguments ser_write : simpl never.
Arguments ser_in_waiting : simpl never.
Arguments ser_read : simpl never.
Arguments ser_close : simpl never.
Arguments thread_start : simpl never.
Arguments list_devices : simpl never.
Arguments send_command : simpl never.
Arguments demo_mode : simpl never.
Arguments listing : simpl never.
Arguments tick : simpl never.

Ltac world_side :=
  cbn [sigint stdin is_open in_buf comports openable open_error
       set_stdin set_sigint set_is_open set_in_buf world_of];
  first [ eassumption | reflexivity ].

Ltac run_extra := fail.

Ltac run_with simp :=
  cbv beta;
  lazymatch goal with
  | |- bind _ _ _ = _ =>
    first [ eapply bind_run; [ run_with simp | run_with simp ]
          | eapply bind_raise; run_with simp ]
  | |- try_except _ _ _ = _ =>
    first [ eapply try_run_ok; run_with simp
          | eapply try_run_handled; [ run_with simp | reflexivity | run_with simp ]
          | eapply try_run_pass; [ run_with simp | reflexivity ] ]
  | |- ret _ _ = _ => reflexivity
  | |- raise _ _ = _ => reflexivity
  | |- get _ _ = _ => reflexivity
  | |- print_ _ _ = _ => apply print_quiet; world_side
  | |- sleep _ _ = _ => apply sleep_quiet; world_side
  | |- thread_start _ = _ => apply thread_start_quiet; world_side
  | |- input_ _ _ = _ =>
    first [ eapply input_quiet; world_side | eapply input_eof; world_side ]
  | |- serial_open _ _ _ _ = _ =>
    first [ eapply serial_open_ok; world_side | eapply serial_open_fails; world_side ]
  | |- ser_write _ _ _ = _ => apply ser_write_quiet; world_side
  | |- ser_in_waiting _ _ = _ => apply ser_in_waiting_quiet; world_side
  | |- ser_read _ _ _ = _ => apply ser_read_quiet; world_side
  | |- ser_close _ _ = _ => apply ser_close_quiet; world_side
  | |- list_devices _ = _ => apply list_devices_quiet; world_side
  | |- for_enumerate _ _ _ _ = _ => eapply for_enumerate_print_quiet; world_side
  | |- send_command _ _ _ = _ =>
    first [ eapply send_command_quiet; world_side
          | eapply send_command_unencodable; eassumption ]
  | |- demo_mode _ _ = _ => eapply demo_mode_quiet; world_side
  | |- _ => first [ run_extra | progress simp; run_with simp ]
  end.

Tactic Notation "run" := run_with ltac:(cbn).
Tactic Notation "run" "using" tactic(t) := run_with ltac:(first [ progress cbn | t ]).

(** Proves [m w = r] by running [m] and comparing the logs. *)
Ltac run_eq_with simp :=
  lazymatch goal with
  | |- ?lhs = _ =>
    let H := fresh "Hrun" in
    eassert (H : lhs = _); [ run_with simp | rewrite H; clear H ]
  end;
  repeat (progress (cbn [app]; rewrite ?app_nil_r, <- ?app_assoc)); try reflexivity.

(** ** The Connector *)

Section Connector.

Variable py_int : str -> option Z.

Lemma int_ok (s : str) (n : Z) (w : World) :
  py_int s = Some n -> int_ py_int s w = Res (Ok n) w [].
Proof. intros H. unfold int_. now rewrite H. Qed.

Lemma int_bad (s : str) (w : World) :
  py_int s = None -> int_ py_int s w = Res (Raise ValueError) w [].
Proof. intros H. unfold int_. now rewrite H. Qed.

Lemma device_at_ok (l : list Port) (n : Z) (p : Port) (w : World) :
  nth_error l (Z.to_nat n) = Some p -> device_at l n w = Res (Ok (device p)) w [].
Proof. intros H. unfold device_at. now rewrite H. Qed.

Ltac run_extra ::=
  lazymatch goal with
  | |- int_ _ _ _ = _ => first [ eapply int_ok; eassumption | eapply int_bad; eassumption ]
  | |- device_at _ _ _ = _ => eapply device_at_ok; first [ eassumption | reflexivity ]
  end.

Lemma filter_none {A : Type} (f : A -> bool) (l : list A) :
  forallb (fun x => negb (f x)) l = true -> filter f l = [].
Proof.
  induction l as [|x l IH]; [reflexivity|]. cbn. intros H.
  apply andb_true_iff in H. destruct H as [Hx Hl].
  destruct (f x); [discriminate | now apply IH].
Qed.

Lemma forallb_map_const {A B : Type} (f : A -> B) (g : B -> bool) (l : list A) :
  (forall x, g (f x) = true) -> forallb g (map f l) = true.
Proof.
  intros H. apply forallb_forall. intros y Hin. apply in_map_iff in Hin.
  destruct Hin as [x [<- _]]. apply H.
Qed.

Lemma listing_no_input (ports : list Port) :
  filter is_input_event (listing ports) = [].
Proof. apply filter_none, forallb_map_const. reflexivity. Qed.

Lemma menu_no_input (ports : list Port) :
  filter is_input_event (menu ports) = [].
Proof.
  unfold menu. rewrite filter_app, listing_no_input.
  destruct (truthy (candidates ports)); [|reflexivity].
  cbn. apply filter_none, forallb_map_const. reflexivity.
Qed.

Lemma menu_no_open (ports : list Port) :
  filter is_open_event (menu ports) = [].
Proof.
  unfold menu. rewrite filter_app.
  replace (filter is_open_event (listing ports)) with (@nil event)
    by (symmetry; apply filter_none, forallb_map_const; reflexivity).
  destruct (truthy (candidates ports)); [|reflexivity].
  cbn. apply filter_none, forallb_map_const. reflexivity.
Qed.

Lemma open_chosen_quiet (w : World) (name : str) :
  sigint w = None ->
  try_except
    (ser <- serial_open name 115200 1000 ;;
     print_ (lit "Connected to " ++ name) ;;
     ret (Some ser))
    (on_SerialException
       (fun msg =>
          print_ (lit "Failed to connect to " ++ name ++ lit ": " ++ msg) ;;
          ret None)) w
  = opening w name.
Proof.
  intros Hq. unfold opening.
  destruct (existsb (str_eqb name) (openable w)) eqn:Hop; run_eq_with ltac:(cbn).
Qed.

(** A choice that [int] rejects, or a number outside the offered list. *)
Lemma connect_select_invalid (w : World) (line : str) (rest : list str) (msg : str) :
  sigint w = None -> stdin w = line :: rest ->
  prompting (comports w) ->
  (py_int line = None /\ msg = lit "Invalid input!")
  \/ (exists n, py_int line = Some n
               /\ (n < 0 \/ Z.of_nat (length (offered (comports w))) <= n)
               /\ msg = lit "Invalid selection!") ->
  connect_to_device py_int None w
  = Res (Ok None) (set_stdin rest w)
      (menu (comports w) ++
       [EInput (prompt_of (comports w)); EPrint (msg ++ [LF]) false]).
Proof.
  intros Hq Hin [Hports Hlen] Hsel.
  assert (Htp : truthy (comports w) = true) by (now destruct (comports w)).
  apply Nat.eqb_neq in Hlen.
  unfold connect_to_device, select_from, menu, device_lines, prompt_of, offered,
    candidates in *.
  destruct (truthy (filter is_candidate (comports w))) eqn:Htr;
    destruct Hsel as [[Hpi ->] | [n [Hpi [Hn ->]]]];
    try (assert (Hrange : (0 <=? n) && (n <? Z.of_nat (length (filter is_candidate (comports w)))) = false)
           by (apply andb_false_iff; rewrite Z.leb_gt, Z.ltb_ge; lia));
    try (assert (Hrange : (0 <=? n) && (n <? Z.of_nat (length (comports w))) = false)
           by (apply andb_false_iff; rewrite Z.leb_gt, Z.ltb_ge; lia));
    run_eq_with ltac:(first [ progress cbn -[Z.of_nat length Z.leb Z.ltb Nat.eqb]
                            | rewrite Htr | rewrite Hlen | rewrite Htp | rewrite Hrange ]).
Qed.

(** A number inside the offered list: the port at that index is opened. *)
Lemma connect_select_valid (w : World) (line : str) (rest : list str) (n : Z) (p : Port) :
  sigint w = None -> stdin w = line :: rest ->
  prompting (comports w) ->
  py_int line = Some n -> 0 <= n ->
  nth_error (offered (comports w)) (Z.to_nat n) = Some p ->
  connect_to_device py_int None w
  = after (menu (comports w) ++ [EInput (prompt_of (comports w))])
      (opening (set_stdin rest w) (device p)).
Proof.
  intros Hq Hin [Hports Hlen] Hpi Hn Hp.
  assert (Htp : truthy (comports w) = true) by (now destruct (comports w)).
  apply Nat.eqb_neq in Hlen.
  assert (Hlt : (Z.to_nat n < length (offered (comports w)))%nat)
    by (apply nth_error_Some; now rewrite Hp).
  unfold connect_to_device, select_from, menu, device_lines, prompt_of, offered,
    candidates, after, opening in *.
  cbn [openable set_stdin].
  destruct (truthy (filter is_candidate (comports w))) eqn:Htr;
    match type of Hlt with
    | (_ < length ?l)%nat =>
      assert (Hrange : (0 <=? n) && (n <? Z.of_nat (length l)) = true)
        by (apply andb_true_iff; rewrite Z.leb_le, Z.ltb_lt; lia)
    end;
    destruct (existsb (str_eqb (device p)) (openable w)) eqn:Hop;
    cbn [outcome_of world_of log_of];
    run_eq_with ltac:(first [ progress cbn -[Z.of_nat length Z.leb Z.ltb Nat.eqb]
                            | rewrite Htr | rewrite Hlen | rewrite Htp | rewrite Hrange ]).
Qed.

(** No port at all. *)
Lemma connect_no_ports (w : World) :
  sigint w = None -> comports w = [] ->
  connect_to_device py_int None w
  = Res (Ok None) w [EPrint (lit "No serial ports found!" ++ [LF]) false].
Proof.
  intros Hq Hp. unfold connect_to_device.
  assert (Hl : listing (comports w) = []) by (now rewrite Hp).
  assert (Hf : filter is_candidate (comports w) = []) by (now rewrite Hp).
  run_eq_with ltac:(first [ progress cbn | rewrite Hf | rewrite Hp ]).
  now rewrite Hl.
Qed.

(** C6. With no interrupt pending, whenever the enumeration finds exactly
    one candidate [d], [connect_to_device] without a port path prints the
    listing, announces the port of [d] and goes straight on to open it:
    it reads nothing from standard input and shows no prompt. *)
Theorem connect_auto_selects_single (w : World) (d : Port) :
  sigint w = None ->
  candidates (comports w) = [d] ->
  let r := connect_to_device py_int None w in
  r = after (listing (comports w) ++
             [EPrint ((LF :: lit "Auto-detected motor controller on " ++ device d) ++ [LF]) false])
        (opening w (device d))
  /\ stdin (world_of r) = stdin w
  /\ filter is_input_event (log_of r) = [].
Proof.
  intros Hq Hd r. unfold candidates in Hd.
  assert (Hr : r = after (listing (comports w) ++
             [EPrint ((LF :: lit "Auto-detected motor controller on " ++ device d) ++ [LF]) false])
        (opening w (device d))).
  { subst r. unfold connect_to_device, after, opening.
    destruct (existsb (str_eqb (device d)) (openable w)) eqn:Hop;
      cbn [outcome_of world_of log_of];
      run_eq_with ltac:(first [ progress cbn | rewrite Hd ]). }
  split; [exact Hr|]. rewrite Hr. unfold after, opening.
  destruct (existsb (str_eqb (device d)) (openable w)); cbn [world_of log_of];
    (split; [reflexivity|]); rewrite !filter_app, listing_no_input; reflexivity.
Qed.

(** C7. With no interrupt pending, when [connect_to_device] asks for a
    number (over the candidates when there are several, over all ports when
    there is no candidate) and the line typed is one [int] rejects, or a
    number below 0 or not below the length of the offered list, it prints
    [Invalid input!], respectively [Invalid selection!], and returns [None];
    it asked once, and it made no attempt to open a port. *)
Theorem connect_rejects_invalid_selection (w : World) (line : str) (rest : list str) :
  sigint w = None -> stdin w = line :: rest ->
  prompting (comports w) ->
  (py_int line = None
   \/ exists n, py_int line = Some n
                /\ (n < 0 \/ Z.of_nat (length (offered (comports w))) <= n)) ->
  let r := connect_to_device py_int None w in
  let msg := match py_int line with
             | None => lit "Invalid input!"
             | Some _ => lit "Invalid selection!"
             end in
  r = Res (Ok None) (set_stdin rest w)
        (menu (comports w) ++
         [EInput (prompt_of (comports w)); EPrint (msg ++ [LF]) false])
  /\ filter is_input_event (log_of r) = [EInput (prompt_of (comports w))]
  /\ filter is_open_event (log_of r) = []
  /\ is_open (world_of r) = is_open w.
Proof.
  intros Hq Hin Hp Hsel r msg.
  assert (Hr : r = Res (Ok None) (set_stdin rest w)
        (menu (comports w) ++
         [EInput (prompt_of (comports w)); EPrint (msg ++ [LF]) false])).
  { subst r msg. apply (connect_select_invalid w line rest _ Hq Hin Hp).
    destruct Hsel as [Hpi | [n [Hpi Hn]]]; rewrite Hpi.
    - now left.
    - right. now exists n. }
  split; [exact Hr|]. rewrite Hr. cbn [log_of world_of].
  rewrite !filter_app, menu_no_input, menu_no_open. repeat split; reflexivity.
Qed.

(** C8. With no interrupt pending and no candidate among the ports: when
    there is no port at all, [connect_to_device] prints
    [No serial ports found!] and returns [None] at once; otherwise it lists
    the ports and asks for a port number over the full list, opens the port
    at that index when the number typed is at least 0 and below the number of
    ports, and fails as for any invalid choice when it is not. *)
Theorem connect_without_candidates (w : World) :
  sigint w = None ->
  candidates (comports w) = [] ->
  let ask := EInput (LF :: lit "No motor controller found. Select port number: ") in
  (comports w = [] ->
   connect_to_device py_int None w
   = Res (Ok None) w [EPrint (lit "No serial ports found!" ++ [LF]) false])
  /\ (comports w <> [] ->
      forall (line : str) (rest : list str),
      stdin w = line :: rest ->
      connect_to_device py_int None w
      = match py_int line with
        | None =>
          Res (Ok None) (set_stdin rest w)
            (listing (comports w) ++ [ask; EPrint (lit "Invalid input!" ++ [LF]) false])
        | Some n =>
          match (if 0 <=? n then nth_error (comports w) (Z.to_nat n) else None) with
          | Some p =>
            after (listing (comports w) ++ [ask]) (opening (set_stdin rest w) (device p))
          | None =>
            Res (Ok None) (set_stdin rest w)
              (listing (comports w) ++ [ask; EPrint (lit "Invalid selection!" ++ [LF]) false])
          end
        end).
Proof.
  intros Hq Hc ask. split; [now apply connect_no_ports|].
  intros Hports line rest Hin.
  assert (Hpr : prompting (comports w)) by (split; [assumption | now rewrite Hc]).
  assert (Hm : menu (comports w) = listing (comports w))
    by (unfold menu; rewrite Hc; cbn; now rewrite app_nil_r).
  assert (Hpo : prompt_of (comports w)
                = LF :: lit "No motor controller found. Select port number: ")
    by (unfold prompt_of; now rewrite Hc).
  assert (Hof : offered (comports w) = comports w)
    by (unfold offered; now rewrite Hc).
  destruct (py_int line) as [n|] eqn:Hpi.
  - destruct (0 <=? n) eqn:H0.
    + apply Z.leb_le in H0.
      destruct (nth_error (comports w) (Z.to_nat n)) as [p|] eqn:Hn.
      * rewrite (connect_select_valid w line rest n p Hq Hin Hpr Hpi H0), Hm, Hpo;
          [reflexivity | now rewrite Hof].
      * apply nth_error_None in Hn.
        rewrite (connect_select_invalid w line rest (lit "Invalid selection!") Hq Hin Hpr), Hm, Hpo;
          [reflexivity|].
        right. exists n. rewrite Hof. repeat split; [assumption | lia].
    + apply Z.leb_gt in H0.
      rewrite (connect_select_invalid w line rest (lit "Invalid selection!") Hq Hin Hpr), Hm, Hpo;
        [reflexivity|].
      right. exists n. repeat split; [assumption | lia].
  - rewrite (connect_select_invalid w line rest (lit "Invalid input!") Hq Hin Hpr), Hm, Hpo;
      [reflexivity | now left].
Qed.

End Connector.

(** ** Computations that leave the connection as it is *)

Ltac calm_base :=
  repeat split; cbn; try discriminate; try reflexivity; try assumption; try lia.

Lemma calm_ret {A : Type} (a : A) : calm (ret a).
Proof. intros w. calm_base. Qed.

Lemma calm_get {A : Type} (f : World -> A) : calm (get f).
Proof. intros w. calm_base. Qed.

Lemma calm_raise {A : Type} (e : exn) : e <> KeyboardInterrupt -> calm (@raise A e).
Proof.
  intros He w. calm_base. intros H. injection H as H. contradiction.
Qed.

Lemma calm_emit (e : event) : plain e = true -> calm (emit e).
Proof.
  intros He w. calm_base. now rewrite He.
Qed.

Lemma calm_tick : calm tick.
Proof.
  intros w. unfold tick. destruct (sigint w) as [[|n]|]; calm_base.
Qed.

Lemma calm_bind {A B : Type} (m : M A) (k : A -> M B) :
  calm m -> (forall a, calm (k a)) -> calm (bind m k).
Proof.
  intros Hm Hk w. destruct (Hm w) as (Hl & Ho & Hki & Hs & Hf).
  unfold bind. destruct (m w) as [[a|e|] w1 l1]; cbn in *.
  - destruct (Hk a w1) as (Hl' & Ho' & Hki' & Hs' & Hf').
    repeat split; cbn.
    + rewrite forallb_app, Hl, Hl'. reflexivity.
    + congruence.
    + exact Hki'.
    + lia.
    + exact Hf'.
  - calm_base. intros H. apply Hki. now injection H as ->.
  - contradiction.
Qed.

Lemma calm_try {A : Type} (m : M A) (h : exn -> option (M A)) :
  calm m -> (forall e hh, h e = Some hh -> calm hh) -> calm (try_except m h).
Proof.
  intros Hm Hh w. destruct (Hm w) as (Hl & Ho & Hki & Hs & Hf).
  unfold try_except. destruct (m w) as [[a|e|] w1 l1] eqn:Em; cbn in *.
  - calm_base.
  - destruct (h e) as [hh|] eqn:Eh.
    + destruct (Hh e hh Eh w1) as (Hl' & Ho' & Hki' & Hs' & Hf').
      repeat split; cbn.
      * rewrite forallb_app, Hl, Hl'. reflexivity.
      * congruence.
      * exact Hki'.
      * lia.
      * exact Hf'.
    + calm_base.
  - contradiction.
Qed.


Lemma calm_print (s : str) : str_eqb (s ++ [LF]) notice_text = false -> calm (print_ s).
Proof.
  intros Hs. unfold print_. apply calm_bind; [apply calm_tick|]. intros _.
  apply calm_emit. unfold plain, tame.
  cbn [is_close_event is_notice is_open_event negb andb]. now rewrite Hs.
Qed.



Lemma calm_list_comports : calm list_comports.
Proof.
  unfold list_comports. apply calm_bind; [apply calm_tick|]. intros _. apply calm_get.
Qed.

Lemma calm_input (prompt : str) : calm (input_ prompt).
Proof.
  unfold input_. apply calm_bind; [apply calm_tick|]. intros _.
  apply calm_bind; [now apply calm_emit|]. intros _.
  intros w. unfold bind, get, modify, ret, raise. cbn.
  destruct (stdin w) as [|line rest] eqn:E; cbn.
  - calm_base.
  - calm_base. rewrite E. cbn. lia.
Qed.







Lemma calm_for_enumerate {A : Type} (l : list A) (body : nat -> A -> M unit) :
  (forall i x, calm (body i x)) -> forall i, calm (for_enumerate i l body).
Proof.
  intros H. induction l as [|x l IH]; intros i; cbn [for_enumerate]; [apply calm_ret|].
  apply calm_bind; [apply H|]. intros _. apply IH.
Qed.

Lemma calm_for_enumerate_acc {A St : Type} (l : list A) (body : nat -> A -> St -> M St) :
  (forall i x s, calm (body i x s)) -> forall i s, calm (for_enumerate_acc i l body s).
Proof.
  intros H. induction l as [|x l IH]; intros i s; cbn [for_enumerate_acc]; [apply calm_ret|].
  apply calm_bind; [apply H|]. intros s'. apply IH.
Qed.

(** A text that starts with a decimal numeral and a colon is not the
    notice, which starts with a line feed. *)
Lemma uint_no_LF (d : Decimal.uint) :
  Forall (fun c => c <> LF) (lit (NilEmpty.string_of_uint d)).
Proof.
  induction d; cbn; constructor; try assumption; discriminate.
Qed.

Lemma str_of_Z_no_LF (n : Z) : Forall (fun c => c <> LF) (str_of_Z n).
Proof.
  unfold str_of_Z, NilZero.string_of_int.
  assert (H : forall d, Forall (fun c => c <> LF) (lit (NilZero.string_of_uint d))).
  { intros d. unfold NilZero.string_of_uint.
    destruct d; try apply uint_no_LF. cbn. constructor; [discriminate | constructor]. }
  destruct (Z.to_int n) as [d|d]; [apply H|].
  cbn. constructor; [discriminate | apply H].
Qed.

Lemma numbered_not_notice (ds t : str) :
  Forall (fun c => c <> LF) ds -> str_eqb ((ds ++ lit ": " ++ t) ++ [LF]) notice_text = false.
Proof.
  intros H. destruct ds as [|c ds]; [reflexivity|].
  inversion H as [|? ? Hc _]; subst. cbn.
  apply Z.eqb_neq in Hc. now rewrite Hc.
Qed.

Lemma calm_list_devices : calm list_devices.
Proof.
  unfold list_devices. apply calm_bind; [apply calm_list_comports|]. intros ports.
  apply calm_bind; [| intros devices; apply calm_ret].
  apply calm_for_enumerate_acc. intros i p devices.
  apply calm_bind.
  - apply calm_print. apply numbered_not_notice, str_of_Z_no_LF.
  - intros _. destruct (is_candidate p); apply calm_ret.
Qed.



(** ** The operations when an interrupt may be pending *)

Lemma tick_cases (w : World) :
  (exists w', tick w = Res (Ok tt) w' []
              /\ is_open w' = is_open w /\ stdin w' = stdin w
              /\ openable w' = openable w /\ open_error w' = open_error w)
  \/ tick w = Res (Raise KeyboardInterrupt) (set_sigint None w) [].
Proof.
  unfold tick. destruct (sigint w) as [[|n]|].
  - now right.
  - left. eexists. repeat split.
  - left. eexists. repeat split.
Qed.

Lemma print_cases (s : str) (w : World) :
  (exists w', print_ s w = Res (Ok tt) w' [EPrint (s ++ [LF]) false]
              /\ is_open w' = is_open w)
  \/ print_ s w = Res (Raise KeyboardInterrupt) (set_sigint None w) [].
Proof.
  unfold print_. destruct (tick_cases w) as [(w' & E & Ho & _) | E].
  - left. exists w'. split; [| exact Ho].
    apply (bind_run _ _ _ _ _ _ _ _ _ E). reflexivity.
  - right. now apply bind_raise.
Qed.

Lemma serial_open_cases (name : str) (baud t : Z) (w : World) :
  (exists w', serial_open name baud t w
              = Res (Ok (mkSerial name)) w' [EOpen name baud t true]
              /\ is_open w' = true)
  \/ (exists w' msg, serial_open name baud t w
                     = Res (Raise (SerialException msg)) w' [EOpen name baud t false])
  \/ serial_open name baud t w = Res (Raise KeyboardInterrupt) (set_sigint None w) [].
Proof.
  unfold serial_open. destruct (tick_cases w) as [(w' & E & _ & _ & Hop & _) | E].
  - destruct (existsb (str_eqb name) (openable w')) eqn:Hex.
    + left. exists (set_is_open true w'). split; [| reflexivity].
      apply (bind_run _ _ _ _ _ _ _ _ _ E).
      unfold bind, get, emit, modify, ret. cbn. rewrite Hex. reflexivity.
    + right; left. exists w', (open_error w').
      apply (bind_run _ _ _ _ _ _ _ _ _ E).
      unfold bind, get, emit, modify, raise. cbn. rewrite Hex. reflexivity.
  - right; right. now apply bind_raise.
Qed.


(** ** The operations when the interrupt is on its way *)


















(** ** Reading a log *)

Lemma plain_tame (l : list event) : forallb plain l = true -> forallb tame l = true.
Proof.
  intros H. apply forallb_forall. intros e He.
  apply (proj1 (forallb_forall _ _) H) in He. unfold plain in He.
  now apply andb_true_iff in He.
Qed.

Lemma tame_no_close (l : list event) :
  forallb tame l = true -> filter is_close_event l = [].
Proof.
  intros H. apply filter_none. apply forallb_forall. intros e He.
  apply (proj1 (forallb_forall _ _) H) in He. unfold tame in He.
  now apply andb_true_iff in He.
Qed.

Lemma plain_no_open (l : list event) :
  forallb plain l = true -> existsb is_open_ok l = false.
Proof.
  induction l as [|e l IH]; [reflexivity|]. cbn [forallb existsb]. intros H.
  apply andb_true_iff in H. destruct H as [He Hl]. rewrite (IH Hl).
  unfold plain in He. apply andb_true_iff in He. destruct He as [_ He].
  now destruct e as [| | ? ? ? [|] | | | | |].
Qed.


Lemma count_close_tame (l : list event) : forallb tame l = true -> count_close l = 0%nat.
Proof. intros H. unfold count_close. now rewrite (tame_no_close l H). Qed.

(** Case analysis on the first part of a sequence. *)
Lemma bind_elim {A B : Type} (m : M A) (k : A -> M B) (w : World) (P : result B -> Prop) :
  (forall a w1 l1, m w = Res (Ok a) w1 l1 -> P (after l1 (k a w1))) ->
  (forall e w1 l1, m w = Res (Raise e) w1 l1 -> P (Res (Raise e) w1 l1)) ->
  (forall w1 l1, m w = Res OutOfFuel w1 l1 -> P (Res OutOfFuel w1 l1)) ->
  P (bind m k w).
Proof.
  intros H1 H2 H3. unfold bind. destruct (m w) as [[a|e|] w1 l1] eqn:E; cbn.
  - apply (H1 a w1 l1 eq_refl).
  - apply (H2 e w1 l1 eq_refl).
  - apply (H3 w1 l1 eq_refl).
Qed.



(** ** The Interactive Session *)





Lemma ascii_upper_from_ascii (c : Z) :
  is_ascii (ascii_upper c) = true -> is_ascii c = true.
Proof.
  unfold is_ascii, ascii_upper.
  destruct ((97 <=? c) && (c <=? 122)) eqn:E; [|trivial].
  intros _. apply andb_true_iff in E. rewrite Z.leb_le in E. destruct E as [E1 E2].
  apply Z.leb_le in E2. apply andb_true_iff. rewrite Z.leb_le, Z.ltb_lt. lia.
Qed.

Lemma is_keyword_ascii (k s : str) :
  is_keyword k s -> forallb is_ascii k = true -> forallb is_ascii s = true.
Proof.
  unfold is_keyword. intros <-. induction s as [|c s IH]; [reflexivity|].
  cbn [map forallb]. intros H. apply andb_true_iff in H. destruct H as [Hc Hs].
  apply andb_true_iff. split; [now apply ascii_upper_from_ascii | now apply IH].
Qed.

Lemma str_eqb_eq (a b : str) : str_eqb a b = true <-> a = b.
Proof.
  revert b. induction a as [|x a IH]; intros [|y b]; cbn; try (split; [discriminate|discriminate]).
  - split; reflexivity.
  - rewrite andb_true_iff, Z.eqb_eq, IH. split.
    + now intros [-> ->].
    + intros H. injection H as -> ->. now split.
Qed.

Lemma str_eqb_refl (a : str) : str_eqb a a = true.
Proof. now apply str_eqb_eq. Qed.

Lemma str_eqb_neq (a b : str) : str_eqb a b = false <-> a <> b.
Proof.
  rewrite <- str_eqb_eq. destruct (str_eqb a b); split; congruence.
Qed.

Section Session.

Variable unicode_upper : str -> str.
Variable unicode_lower : str -> str.
Variable py_int : str -> option Z.

Lemma upper_keyword (k s : str) :
  forallb is_ascii k = true -> is_keyword k s -> upper unicode_upper s = k.
Proof.
  intros Hk Hs. unfold upper.
  now rewrite (is_keyword_ascii k s Hs Hk).
Qed.

Lemma upper_ascii (s : str) :
  forallb is_ascii s = true -> upper unicode_upper s = map ascii_upper s.
Proof. intros H. unfold upper. now rewrite H. Qed.

(** One turn of the loop on the line [line], whatever it is. *)
Lemma interactive_step_quiet (ser : Serial) (w : World) (line : str) (rest : list str) :
  sigint w = None -> is_open w = true -> stdin w = line :: rest ->
  interactive_step unicode_upper ser w
  = let cmd := strip line in
    let w' := set_stdin rest w in
    if str_eqb (upper unicode_upper cmd) (lit "QUIT") then Res (Ok Break) w' [EInput []]
    else if str_eqb (upper unicode_upper cmd) (lit "DEMO")
    then Res (Ok Continue) w' (EInput [] :: demo_log)
    else if truthy cmd then
      match utf8_encode cmd with
      | Some bs => Res (Ok Continue) w' [EInput []; EWrite (bs ++ [13; 10]); ESleep 100]
      | None => Res (Raise UnicodeEncodeError) w' [EInput []]
      end
    else Res (Ok Continue) w' [EInput []].
Proof.
  intros Hq Ho Hin. unfold interactive_step. cbv zeta.
  destruct (str_eqb (upper unicode_upper (strip line)) (lit "QUIT")) eqn:HQ;
    [ run_eq_with ltac:(first [ progress cbn | rewrite HQ ]) |].
  destruct (str_eqb (upper unicode_upper (strip line)) (lit "DEMO")) eqn:HD;
    [ run_eq_with ltac:(first [ progress cbn | rewrite HQ | rewrite HD ]) |].
  destruct (truthy (strip line)) eqn:HT;
    [| run_eq_with ltac:(first [ progress cbn | rewrite HQ | rewrite HD | rewrite HT ]) ].
  destruct (utf8_encode (strip line)) as [bs|] eqn:HE;
    run_eq_with ltac:(first [ progress cbn | rewrite HQ | rewrite HD | rewrite HT ]).
Qed.

Lemma step_quit (ser : Serial) (w : World) (line : str) (rest : list str) :
  sigint w = None -> is_open w = true -> stdin w = line :: rest ->
  is_keyword (lit "QUIT") (strip line) ->
  interactive_step unicode_upper ser w = Res (Ok Break) (set_stdin rest w) [EInput []].
Proof.
  intros Hq Ho Hin Hk. rewrite (interactive_step_quiet ser w line rest Hq Ho Hin). cbv zeta.
  rewrite (upper_keyword (lit "QUIT") _ eq_refl Hk). reflexivity.
Qed.

Lemma step_demo (ser : Serial) (w : World) (line : str) (rest : list str) :
  sigint w = None -> is_open w = true -> stdin w = line :: rest ->
  is_keyword (lit "DEMO") (strip line) ->
  interactive_step unicode_upper ser w
  = Res (Ok Continue) (set_stdin rest w) (EInput [] :: demo_log).
Proof.
  intros Hq Ho Hin Hk. rewrite (interactive_step_quiet ser w line rest Hq Ho Hin). cbv zeta.
  rewrite (upper_keyword (lit "DEMO") _ eq_refl Hk). reflexivity.
Qed.

Lemma step_blank (ser : Serial) (w : World) (line : str) (rest : list str) :
  sigint w = None -> is_open w = true -> stdin w = line :: rest ->
  strip line = [] ->
  interactive_step unicode_upper ser w = Res (Ok Continue) (set_stdin rest w) [EInput []].
Proof.
  intros Hq Ho Hin Hk. rewrite (interactive_step_quiet ser w line rest Hq Ho Hin). cbv zeta.
  rewrite Hk. reflexivity.
Qed.

Lemma step_command (ser : Serial) (w : World) (line : str) (rest : list str) (bs : bytes) :
  sigint w = None -> is_open w = true -> stdin w = line :: rest ->
  strip line <> [] ->
  upper unicode_upper (strip line) <> lit "QUIT" ->
  upper unicode_upper (strip line) <> lit "DEMO" ->
  utf8_encode (strip line) = Some bs ->
  interactive_step unicode_upper ser w
  = Res (Ok Continue) (set_stdin rest w) [EInput []; EWrite (bs ++ [13; 10]); ESleep 100].
Proof.
  intros Hq Ho Hin Hne HQ HD He.
  rewrite (interactive_step_quiet ser w line rest Hq Ho Hin). cbv zeta.
  apply str_eqb_neq in HQ, HD. rewrite HQ, HD, He.
  destruct (strip line); [contradiction | reflexivity].
Qed.

(** For a line of ASCII text, being a keyword after upper-casing is being
    the keyword in some letter case. *)
Lemma upper_not_keyword (k s : str) :
  forallb is_ascii s = true -> ~ is_keyword k s -> upper unicode_upper s <> k.
Proof. intros Ha Hk. now rewrite (upper_ascii s Ha). Qed.

(** C3. With no interrupt pending and the connection open, one turn of the
    Interactive Session on a line, taken without the white space around it:
    QUIT in any letter case ends the loop and nothing is written; DEMO in any
    letter case runs the Demo Sequence, whose six POS commands are all that
    is written; an empty line does nothing; any other line (its upper-casing
    is neither QUIT nor DEMO, which for ASCII text means it is neither word
    in any letter case) is written as its UTF-8 bytes followed by CR LF, and
    the loop goes on. *)
Theorem interactive_step_dispatch (ser : Serial) (w : World) (line : str) (rest : list str) :
  sigint w = None -> is_open w = true -> stdin w = line :: rest ->
  let r := interactive_step unicode_upper ser w in
  let cmd := strip line in
  (is_keyword (lit "QUIT") cmd ->
   r = Res (Ok Break) (set_stdin rest w) [EInput []])
  /\ (is_keyword (lit "DEMO") cmd ->
      r = Res (Ok Continue) (set_stdin rest w) (EInput [] :: demo_log)
      /\ filter is_write_event (log_of r)
         = map (fun n => EWrite (lit "POS " ++ str_of_Z n ++ [13; 10]))
             [0; 1024; 2048; 3072; 4095; 2048])
  /\ (cmd = [] ->
      r = Res (Ok Continue) (set_stdin rest w) [EInput []])
  /\ (forall bs, cmd <> [] ->
      upper unicode_upper cmd <> lit "QUIT" -> upper unicode_upper cmd <> lit "DEMO" ->
      utf8_encode cmd = Some bs ->
      r = Res (Ok Continue) (set_stdin rest w)
            [EInput []; EWrite (bs ++ [13; 10]); ESleep 100])
  /\ (forallb is_ascii cmd = true ->
      (upper unicode_upper cmd <> lit "QUIT" <-> ~ is_keyword (lit "QUIT") cmd)
      /\ (upper unicode_upper cmd <> lit "DEMO" <-> ~ is_keyword (lit "DEMO") cmd)).
Proof.
  intros Hq Ho Hin r cmd. subst r cmd.
  split; [|split; [|split; [|split]]].
  - apply (step_quit ser w line rest Hq Ho Hin).
  - intros Hk. rewrite (step_demo ser w line rest Hq Ho Hin Hk). split; reflexivity.
  - apply (step_blank ser w line rest Hq Ho Hin).
  - intros bs. apply (step_command ser w line rest bs Hq Ho Hin).
  - intros Ha. split; (split; [| now apply upper_not_keyword]);
      intros HU HK; apply HU; now apply upper_keyword.
Qed.


(** *** The connection through a whole run *)

Lemma calm_int (line : str) : calm (int_ py_int line).
Proof.
  unfold int_. destruct (py_int line); [apply calm_ret | apply calm_raise; discriminate].
Qed.

Lemma calm_device_at (l : list Port) (i : Z) : calm (device_at l i).
Proof.
  unfold device_at. destruct (nth_error l (Z.to_nat i));
    [apply calm_ret | apply calm_raise; discriminate].
Qed.

Lemma calm_select_from (prompt : str) (l : list Port) : calm (select_from py_int prompt l).
Proof.
  unfold select_from. apply calm_try.
  - apply calm_bind; [apply calm_input|]. intros line.
    apply calm_bind; [apply calm_int|]. intros n.
    destruct ((0 <=? n) && (n <? Z.of_nat (length l))).
    + apply calm_bind; [apply calm_device_at | intros name; apply calm_ret].
    + apply calm_bind; [now apply calm_print | intros _; apply calm_ret].
  - intros e hh He. destruct e; try discriminate. injection He as <-.
    apply calm_bind; [now apply calm_print | intros _; apply calm_ret].
Qed.

Lemma open_chosen_connected (w : World) (name : str) :
  connected
    (try_except
       (ser <- serial_open name 115200 1000 ;;
        print_ (lit "Connected to " ++ name) ;;
        ret (Some ser))
       (on_SerialException
          (fun msg =>
             print_ (lit "Failed to connect to " ++ name ++ lit ": " ++ msg) ;;
             ret None)) w).
Proof.
  unfold connected.
  destruct (serial_open_cases name 115200 1000 w) as [(w1 & E & Ho) | [(w1 & msg & E) | E]].
  - destruct (print_cases (lit "Connected to " ++ name) w1) as [(w2 & E2 & Ho2) | E2].
    + rewrite (try_run_ok _ _ _ _ _ _
                 (bind_run _ _ _ _ _ _ _ _ _ E
                    (bind_run _ (fun _ => ret (Some (mkSerial name))) _ _ _ _ _ _ _ E2 eq_refl))).
      cbn [outcome_of world_of log_of]. repeat split; try discriminate; congruence.
    + rewrite (try_run_pass _ _ _ _ _ _
                 (bind_run _ _ _ _ _ _ _ _ _ E
                    (bind_raise _ (fun _ => ret (Some (mkSerial name))) _ _ _ _ E2)) eq_refl).
      cbn [outcome_of world_of log_of]. repeat split; discriminate.
  - destruct (print_cases (lit "Failed to connect to " ++ name ++ lit ": " ++ msg) w1)
      as [(w2 & E2 & Ho2) | E2].
    + rewrite (try_run_handled _ _ _ _ _ _ _ _ _ _
                 (bind_raise _ _ _ _ _ _ E) eq_refl
                 (bind_run _ (fun _ => ret None) _ _ _ _ _ _ _ E2 eq_refl)).
      cbn [outcome_of world_of log_of]. repeat split; discriminate.
    + rewrite (try_run_handled _ _ _ _ _ _ _ _ _ _
                 (bind_raise _ _ _ _ _ _ E) eq_refl
                 (bind_raise _ (fun _ => ret None) _ _ _ _ E2)).
      cbn [outcome_of world_of log_of]. repeat split; discriminate.
  - rewrite (try_run_pass _ _ _ _ _ _ (bind_raise _ _ _ _ _ _ E) eq_refl).
    cbn [outcome_of world_of log_of]. repeat split; discriminate.
Qed.

Lemma connect_connected (port_name : option str) (w : World) :
  connected (connect_to_device py_int port_name w).
Proof.
  unfold connect_to_device.
  match goal with
  | |- connected (bind ?sel _ _) => assert (Hcalm : calm sel)
  end.
  { destruct (negb (truthy match port_name with Some s => s | None => [] end));
      [| apply calm_ret].
    apply calm_bind; [apply calm_list_devices|]. intros [ports devices].
    destruct (truthy devices).
    - destruct (length devices =? 1)%nat.
      + apply calm_bind; [apply calm_device_at|]. intros name.
        apply calm_bind; [now apply calm_print | intros _; apply calm_ret].
      + apply calm_bind; [now apply calm_print|]. intros _.
        apply calm_bind; [| intros _; apply calm_select_from].
        apply calm_for_enumerate. intros j dev. now apply calm_print.
    - destruct (negb (truthy ports)).
      + apply calm_bind; [now apply calm_print | intros _; apply calm_ret].
      + apply calm_select_from. }
  specialize (Hcalm w). destruct Hcalm as (Hl & _ & Hki & _ & Hf).
  apply bind_elim; intros *; intros Hsel; rewrite Hsel in Hl, Hki, Hf;
    cbn in Hl, Hki, Hf.
  - destruct a as [name|].
    + destruct (open_chosen_connected w1 name) as (Ht & Hki' & Hf' & Ho).
      unfold connected, after. cbn [outcome_of world_of log_of].
      split; [| split; [| split]]; try assumption.
      * rewrite forallb_app, (plain_tame _ Hl), Ht. reflexivity.
      * destruct (outcome_of _) as [[ser|]|e|]; try assumption.
        now rewrite existsb_app, (plain_no_open _ Hl), Ho.
    + unfold connected, after. cbn. rewrite app_nil_r.
      repeat split; try discriminate.
      * now apply plain_tame.
      * now apply plain_no_open.
  - unfold connected. cbn. repeat split; try discriminate.
    + now apply plain_tame.
    + intros H. apply Hki. now injection H as ->.
  - now contradiction Hf.
Qed.













(** *** An interrupt inside the loop of the Interactive Session *)









End Session.

(** ** The statements on the test bench *)

Lemma connect_auto_selects_single_witness :
  outcome_of (connect_to_device ascii_int None (bench [] None [other_port; tilta_port]))
  = Ok (Some acm0)
  /\ filter is_input_event
       (log_of (connect_to_device ascii_int None (bench [] None [other_port; tilta_port])))
     = [].
Proof.
  destruct (connect_auto_selects_single ascii_int
              (bench [] None [other_port; tilta_port]) tilta_port eq_refl eq_refl)
    as (Hr & _ & Hi).
  split; [rewrite Hr; reflexivity | exact Hi].
Defined.

Lemma connect_rejects_invalid_selection_witness :
  connect_to_device ascii_int None
    (bench [lit "5"] None [tilta_port; other_port; second_tilta_port])
  = Res (Ok None) (bench [] None [tilta_port; other_port; second_tilta_port])
      (menu [tilta_port; other_port; second_tilta_port] ++
       [EInput (lit "Select device number: ");
        EPrint (lit "Invalid selection!" ++ [LF]) false]).
Proof.
  refine (proj1 (connect_rejects_invalid_selection ascii_int
            (bench [lit "5"] None [tilta_port; other_port; second_tilta_port])
            (lit "5") [] eq_refl eq_refl _ _)).
  - split; [discriminate | vm_compute; discriminate].
  - right. exists 5. split; [reflexivity | right; vm_compute; discriminate].
Defined.

Lemma connect_without_candidates_witness :
  connect_to_device ascii_int None (bench [lit "0"] None [other_port])
  = Res (Ok (Some (mkSerial (lit "/dev/ttyUSB0"))))
      (mkWorld [] None [other_port] [device other_port] (lit "could not open port") true [])
      (listing [other_port] ++
       [EInput (LF :: lit "No motor controller found. Select port number: ");
        EOpen (lit "/dev/ttyUSB0") 115200 1000 true;
        EPrint ((lit "Connected to " ++ lit "/dev/ttyUSB0") ++ [LF]) false]).
Proof.
  destruct (connect_without_candidates ascii_int (bench [lit "0"] None [other_port])
              eq_refl eq_refl) as [_ H].
  rewrite (H ltac:(discriminate) (lit "0") [] eq_refl). reflexivity.
Defined.

Lemma interactive_step_dispatch_witness :
  interactive_step no_unicode acm0 (bench_open [lit "quit"] None)
  = Res (Ok Break) (bench_open [] None) [EInput []].
Proof.
  exact (proj1 (interactive_step_dispatch no_unicode acm0 (bench_open [lit "quit"] None)
                  (lit "quit") [] eq_refl eq_refl eq_refl) eq_refl).
Defined.



(** C3, as the specification words it, fails: a line with white space
    around it is not written as typed. *)
Lemma interactive_step_raw_line_refuted :
  ~ (forall (uu : str -> str) (ser : Serial) (w : World) (line : str) (rest : list str)
            (bs : bytes),
       sigint w = None -> is_open w = true -> stdin w = line :: rest ->
       line <> [] ->
       ~ is_keyword (lit "QUIT") line -> ~ is_keyword (lit "DEMO") line ->
       utf8_encode line = Some bs ->
       In (EWrite (bs ++ [13; 10])) (log_of (interactive_step uu ser w))).
Proof.
  intros H.
  specialize (H no_unicode acm0 (bench_open [lit " pos 10"] None) (lit " pos 10") []
                (lit " pos 10") eq_refl eq_refl eq_refl).
  assert (Hin : In (EWrite (lit " pos 10" ++ [13; 10]))
                  [EInput []; EWrite (lit "pos 10" ++ [13; 10]); ESleep 100]).
  { apply H; [discriminate | discriminate | discriminate | reflexivity]. }
  cbn in Hin. destruct Hin as [Hin | [Hin | [Hin | []]]]; discriminate.
Qed.

(** C1, as the specification words it (for every text), fails: a text that
    holds a surrogate code point, as [input()] returns for an input byte that
    is not UTF-8, is not written at all, and no sleep follows. *)
Lemma send_command_any_text_refuted :
  ~ (forall (ser : Serial) (T : str) (w : World),
       sigint w = None -> is_open w = true ->
       exists data : bytes,
         log_of (send_command ser T w) = [EWrite data; ESleep 100]).
Proof.
  intros H.
  destruct (H acm0 (lit "pos " ++ [0xDCFF]) (bench_open [] None) eq_refl eq_refl)
    as [data Hd].
  vm_compute in Hd. discriminate.
Qed.


Lemma read_responses_decodes_witness :
  decode_ignore [79; 75; 0xFF; 0xE2; 0x82; 10] = lit "OK" ++ [LF]
  /\ decode_ignore [0xE2; 0x82; 0xAC] = [0x20AC]
  /\ exists kept, utf8_encode (decode_ignore [79; 75; 0xFF; 0xE2; 0x82; 10]) = Some kept
                  /\ subseq kept [79; 75; 0xFF; 0xE2; 0x82; 10].
Proof.
  destruct (read_responses_decodes [79; 75; 0xFF; 0xE2; 0x82; 10] []) as (_ & Hk & _).
  destruct (read_responses_decodes [0xE2; 0x82; 0xAC] []) as (_ & _ & Hr).
  split; [reflexivity | split].
  - apply (Hr [0x20AC]). reflexivity.
  - apply Hk. repeat constructor; unfold is_byte; lia.
Defined.

(** C4, as the specification words it, fails: an undecodable byte is not
    replaced by U+FFFD, it is left out. *)
Lemma read_responses_replace_refuted :
  ~ (forall (chunk : bytes) (rest : list poll),
       read_responses (PollData chunk :: rest)
       = ERead chunk :: EPrint (decode_replace chunk) true :: ESleep 10
           :: read_responses rest).
Proof.
  intros H. specialize (H [0xFF] []). discriminate.
Qed.

(** * Further properties *)

(** ** UTF-8 on the wire and in the reader *)

Lemma utf8_encode_ascii (s : str) :
  forallb is_ascii s = true -> utf8_encode s = Some s.
Proof.
  induction s as [|c s IH]; [reflexivity|]. cbn [forallb utf8_encode]. intros H.
  apply andb_true_iff in H. destruct H as [Hc Hs].
  unfold is_ascii in Hc. apply andb_true_iff in Hc. rewrite Z.leb_le, Z.ltb_lt in Hc.
  rewrite encode_char_1, (IH Hs) by lia. reflexivity.
Qed.

(** X1. A command of ASCII text goes out byte for byte: what [send_command]
    writes is the characters of the command, control characters and line
    ends inside it included, followed by CR LF. *)
Theorem send_command_ascii_verbatim (ser : Serial) (T : str) (w : World) :
  sigint w = None -> is_open w = true -> forallb is_ascii T = true ->
  send_command ser T w = Res (Ok tt) w [EWrite (T ++ [13; 10]); ESleep 100].
Proof.
  intros Hq Ho Ha. apply send_command_quiet; try assumption.
  now apply utf8_encode_ascii.
Qed.

Lemma send_command_ascii_verbatim_witness :
  send_command acm0 (lit "POS 1" ++ [10] ++ lit "POS 2") (bench_open [] None)
  = Res (Ok tt) (bench_open [] None)
      [EWrite ((lit "POS 1" ++ [10] ++ lit "POS 2") ++ [13; 10]); ESleep 100].
Proof.
  apply (send_command_ascii_verbatim acm0 (lit "POS 1" ++ [10] ++ lit "POS 2")
           (bench_open [] None)); reflexivity.
Defined.

Lemma utf8_encode_surrogate (s : str) :
  Exists is_surrogate s -> utf8_encode s = None.
Proof.
  induction 1 as [c s Hc | c s _ IH]; cbn [utf8_encode].
  - replace (utf8_encode_char c) with (@None bytes); [reflexivity|].
    unfold is_surrogate in Hc. unfold utf8_encode_char.
    destruct (Z.ltb_spec c 0); [lia|]. destruct (Z.ltb_spec c 0x80); [lia|].
    destruct (Z.ltb_spec c 0x800); [lia|].
    destruct (Z.leb_spec 0xD800 c); [|lia]. destruct (Z.leb_spec c 0xDFFF); [|lia].
    reflexivity.
  - rewrite IH. now destruct (utf8_encode_char c).
Qed.

(** X2. A command that holds a surrogate code point is not sent at all:
    [send_command] raises [UnicodeEncodeError] before it comes to the write,
    and it does not sleep; this holds whatever the state of the connection,
    and an interrupt that was due at the write stays pending. *)
Theorem send_command_surrogate_raises (ser : Serial) (T : str) (w : World) :
  Exists is_surrogate T ->
  send_command ser T w = Res (Raise UnicodeEncodeError) w [].
Proof.
  intros H. unfold send_command, encode.
  rewrite utf8_encode_app, (utf8_encode_surrogate T H). reflexivity.
Qed.

Lemma send_command_surrogate_raises_witness :
  send_command acm0 (lit "POS " ++ [0xD800]) (bench_open [] None)
  = Res (Raise UnicodeEncodeError) (bench_open [] None) [].
Proof.
  apply send_command_surrogate_raises.
  apply Exists_exists. exists 0xD800.
  split; [apply in_or_app; right; now left | unfold is_surrogate; lia].
Defined.

Lemma ser_write_closed (ser : Serial) (data : bytes) (w : World) :
  sigint w = None -> is_open w = false ->
  ser_write ser data w = Res (Raise (SerialException port_not_open)) w [].
Proof.
  intros Hq Ho. unfold ser_write, require_open.
  cbv [bind tick get raise emit ret]. rewrite Hq. cbv beta iota. cbn [outcome_of world_of log_of].
  rewrite Ho. reflexivity.
Qed.

(** X3. On a closed connection [send_command] raises the serial exception of
    the write: nothing is written and the 100 ms sleep is not taken. *)
Theorem send_command_closed_raises (ser : Serial) (T : str) (w : World) :
  sigint w = None -> is_open w = false -> Forall is_scalar T ->
  send_command ser T w = Res (Raise (SerialException port_not_open)) w [].
Proof.
  intros Hq Ho Hs. destruct (encode_scalars T Hs) as [bs He].
  unfold send_command, encode. rewrite (utf8_encode_crlf _ _ He).
  etransitivity;
    [ eapply bind_run; [reflexivity | apply bind_raise; now apply ser_write_closed]
    | reflexivity ].
Qed.

Lemma send_command_closed_raises_witness :
  send_command acm0 (lit "STATUS") (bench [] None [tilta_port])
  = Res (Raise (SerialException port_not_open)) (bench [] None [tilta_port]) [].
Proof.
  apply send_command_closed_raises; try reflexivity.
  repeat constructor; unfold is_scalar; cbn; lia.
Defined.

(** X4. Two texts never give the same bytes: [str.encode()] as the Command
    Sender uses it is one-to-one, so what is on the wire determines the
    command. *)
Theorem utf8_encode_injective (s1 s2 : str) (bs : bytes) :
  utf8_encode s1 = Some bs -> utf8_encode s2 = Some bs -> s1 = s2.
Proof.
  intros H1 H2. rewrite <- (decode_encoded [] s1 bs H1). now apply decode_encoded.
Qed.

Lemma utf8_encode_injective_witness :
  lit "POS 10" = [80; 79; 83; 32; 49; 48].
Proof.
  apply (utf8_encode_injective (lit "POS 10") [80; 79; 83; 32; 49; 48] (lit "POS 10"));
    reflexivity.
Defined.

(** ** The Reader Loop, further *)

(** X5. Whatever it finds on the connection, the reader thread only reads,
    prints with a flush and sleeps 10 ms: it never writes to the device,
    never closes the connection, never prints without a flush. *)
Theorem read_responses_only_reads_and_prints (polls : list poll) :
  forallb reader_event (read_responses polls) = true.
Proof.
  induction polls as [|[|chunk|] polls IH]; cbn; try reflexivity; exact IH.
Qed.

(** X6. An error of the connection ends the reader thread silently: the
    passes before the error are handled as usual, with one 10 ms sleep each,
    and nothing at all is done from the error on. *)
Theorem read_responses_stops_at_error (ps rest : list poll) :
  forallb (fun p => negb (is_error_poll p)) ps = true ->
  read_responses (ps ++ PollError :: rest) = read_responses ps
  /\ length (filter is_sleep_event (read_responses ps)) = length ps.
Proof.
  induction ps as [|[|chunk|] ps IH]; cbn; intros H; try discriminate.
  - split; reflexivity.
  - destruct (IH H) as [-> ->]. split; reflexivity.
  - destruct (IH H) as [-> ->]. split; reflexivity.
Qed.

Lemma read_responses_stops_at_error_witness :
  read_responses ([PollIdle; PollData (lit "OK")] ++ PollError :: [PollData (lit "late")])
  = [ESleep 10; ERead (lit "OK"); EPrint (lit "OK") true; ESleep 10].
Proof.
  rewrite (proj1 (read_responses_stops_at_error [PollIdle; PollData (lit "OK")]
                    [PollData (lit "late")] eq_refl)).
  reflexivity.
Defined.

Lemma decode_ignore_ascii (bs : bytes) :
  forallb is_ascii bs = true -> decode_ignore bs = bs.
Proof.
  unfold decode_ignore. induction bs as [|b bs IH]; [reflexivity|].
  cbn [forallb]. intros H. apply andb_true_iff in H. destruct H as [Hb Hbs].
  unfold is_ascii in Hb. apply andb_true_iff in Hb. rewrite Z.leb_le, Z.ltb_lt in Hb.
  cbn [utf8_decode]. destruct (Z.ltb_spec b 0x80); [| lia]. now rewrite (IH Hbs).
Qed.

(** X7. A chunk of ASCII bytes is printed as it is, byte for byte, control
    characters included. *)
Theorem read_responses_ascii_verbatim (chunk : bytes) (rest : list poll) :
  forallb is_ascii chunk = true ->
  read_responses (PollData chunk :: rest)
  = ERead chunk :: EPrint chunk true :: ESleep 10 :: read_responses rest.
Proof.
  intros H. cbn [read_responses]. now rewrite (decode_ignore_ascii chunk H).
Qed.

Lemma read_responses_ascii_verbatim_witness :
  read_responses [PollData (lit "OK" ++ [13; 10])]
  = [ERead (lit "OK" ++ [13; 10]); EPrint (lit "OK" ++ [13; 10]) true; ESleep 10].
Proof.
  apply (read_responses_ascii_verbatim (lit "OK" ++ [13; 10]) []). reflexivity.
Defined.

Lemma decode_ignore_continuations (q : bytes) :
  Forall is_continuation q -> decode_ignore q = [].
Proof.
  unfold decode_ignore. induction 1 as [|b q Hb _ IH]; [reflexivity|].
  unfold is_continuation in Hb. cbn [utf8_decode].
  destruct (Z.ltb_spec b 0x80); [lia|]. destruct (Z.ltb_spec b 0xC2); [| lia].
  exact IH.
Qed.

(** A lead byte and what follows it, cut short by the end of the data. *)
Lemma decode_ignore_truncated_1 (b1 : Z) :
  0xC2 <= b1 < 0xF5 -> decode_ignore [b1] = [].
Proof.
  intros H. unfold decode_ignore. cbn [utf8_decode]. head_tests; reflexivity.
Qed.

Lemma decode_ignore_truncated_2 (b1 b2 : Z) :
  (0xE0 <= b1 < 0xF0 /\ bad2_of3 b1 b2 = false)
  \/ (0xF0 <= b1 < 0xF5 /\ bad2_of4 b1 b2 = false) ->
  decode_ignore [b1; b2] = [].
Proof.
  intros H. unfold decode_ignore.
  remember [b2] as r1 eqn:E1. cbn [utf8_decode].
  destruct H as [[H B] | [H B]]; head_tests; subst r1; cbv beta iota; rewrite B;
    reflexivity.
Qed.

Lemma decode_ignore_truncated_3 (b1 b2 b3 : Z) :
  0xF0 <= b1 < 0xF5 -> bad2_of4 b1 b2 = false -> is_cont b3 = true ->
  decode_ignore [b1; b2; b3] = [].
Proof.
  intros H B C. unfold decode_ignore.
  remember [b2; b3] as r1 eqn:E1. cbn [utf8_decode].
  head_tests; subst r1; cbv beta iota; rewrite B, C; reflexivity.
Qed.

Lemma split_2 {A : Type} (a b : A) (p q : list A) :
  [a; b] = p ++ q -> p <> [] -> q <> [] -> p = [a] /\ q = [b].
Proof.
  intros H Hp Hq. destruct p as [|x [|y p]]; [contradiction | |].
  - now injection H as <- <-.
  - injection H as _ _ H. destruct p; [destruct q; [contradiction|] |]; discriminate.
Qed.

Lemma split_3 {A : Type} (a b c : A) (p q : list A) :
  [a; b; c] = p ++ q -> p <> [] -> q <> [] ->
  (p = [a] /\ q = [b; c]) \/ (p = [a; b] /\ q = [c]).
Proof.
  intros H Hp Hq. destruct p as [|x p]; [contradiction|].
  injection H as <- H. destruct p as [|y p]; [left; now subst|].
  right. destruct (split_2 b c (y :: p) q H ltac:(discriminate) Hq) as [-> ->]. now split.
Qed.

Lemma split_4 {A : Type} (a b c d : A) (p q : list A) :
  [a; b; c; d] = p ++ q -> p <> [] -> q <> [] ->
  (p = [a] /\ q = [b; c; d]) \/ (p = [a; b] /\ q = [c; d])
  \/ (p = [a; b; c] /\ q = [d]).
Proof.
  intros H Hp Hq. destruct p as [|x p]; [contradiction|].
  injection H as <- H. destruct p as [|y p]; [left; now subst|].
  right. destruct (split_3 b c d (y :: p) q H ltac:(discriminate) Hq) as [[-> ->] | [-> ->]];
    [left | right]; now split.
Qed.

Ltac continuations :=
  apply decode_ignore_continuations;
  repeat (apply Forall_cons; [unfold is_continuation; euclid |]); apply Forall_nil.

Lemma split_char_lost (c : Z) (b p q : bytes) :
  utf8_encode_char c = Some b -> b = p ++ q -> p <> [] -> q <> [] ->
  decode_ignore p = [] /\ decode_ignore q = [].
Proof.
  intros He Hb Hp Hq. apply encode_char_cases in He.
  destruct He as [[Hc ->] | [[Hc ->] | [[Hc [Hs ->]] | [Hc ->]]]].
  - destruct p as [|x [|y p]]; try contradiction; destruct q; try contradiction;
      discriminate.
  - destruct (split_2 _ _ _ _ Hb Hp Hq) as [-> ->]. clear Hb Hp Hq. split.
    + apply decode_ignore_truncated_1. euclid.
    + continuations.
  - assert (B : bad2_of3 (224 + c / 4096) (128 + (c / 64) mod 64) = false)
      by (unfold bad2_of3, is_cont; split_tests; reflexivity).
    destruct (split_3 _ _ _ _ _ Hb Hp Hq) as [[-> ->] | [-> ->]]; clear Hb Hp Hq; split.
    + apply decode_ignore_truncated_1. euclid.
    + continuations.
    + apply decode_ignore_truncated_2. left. split; [euclid | exact B].
    + continuations.
  - assert (B : bad2_of4 (240 + c / 262144) (128 + (c / 4096) mod 64) = false)
      by (unfold bad2_of4, is_cont; split_tests; reflexivity).
    assert (C : is_cont (128 + (c / 64) mod 64) = true)
      by (unfold is_cont; split_tests; reflexivity).
    destruct (split_4 _ _ _ _ _ _ Hb Hp Hq) as [[-> ->] | [[-> ->] | [-> ->]]];
      clear Hb Hp Hq; split.
    + apply decode_ignore_truncated_1. euclid.
    + continuations.
    + apply decode_ignore_truncated_2. right. split; [euclid | exact B].
    + continuations.
    + apply decode_ignore_truncated_3; [euclid | exact B | exact C].
    + continuations.
Qed.

(** X8. The reader decodes each chunk on its own: a character whose bytes
    arrive in two reads is lost, both halves printing as the empty text,
    while the same bytes in one read print the character. *)
Theorem read_responses_split_character_lost (c : Z) (b p q : bytes) (rest : list poll) :
  utf8_encode_char c = Some b -> b = p ++ q -> p <> [] -> q <> [] ->
  read_responses (PollData p :: PollData q :: rest)
  = ERead p :: EPrint [] true :: ESleep 10
      :: ERead q :: EPrint [] true :: ESleep 10 :: read_responses rest
  /\ read_responses (PollData b :: rest)
     = ERead b :: EPrint [c] true :: ESleep 10 :: read_responses rest.
Proof.
  intros He Hb Hp Hq. destruct (split_char_lost c b p q He Hb Hp Hq) as [Dp Dq].
  cbn [read_responses]. rewrite Dp, Dq. split; [reflexivity|].
  unfold decode_ignore.
  rewrite <- (app_nil_r b), (decode_encoded_char [] c b [] He). reflexivity.
Qed.

Lemma read_responses_split_character_lost_witness :
  read_responses [PollData [0xE2; 0x82]; PollData [0xAC]]
  = [ERead [0xE2; 0x82]; EPrint [] true; ESleep 10;
     ERead [0xAC]; EPrint [] true; ESleep 10]
  /\ read_responses [PollData [0xE2; 0x82; 0xAC]]
     = [ERead [0xE2; 0x82; 0xAC]; EPrint [0x20AC] true; ESleep 10].
Proof.
  apply (read_responses_split_character_lost 0x20AC [0xE2; 0x82; 0xAC]
           [0xE2; 0x82] [0xAC] []); (reflexivity || discriminate).
Defined.

(** ** The Demo Sequence, further *)

Lemma event_eqb_eq (a b : event) : event_eqb a b = true -> a = b.
Proof.
  destruct a, b; cbn; try discriminate; intros H;
    repeat match goal with
           | H : _ && _ = true |- _ => apply andb_true_iff in H; destruct H
           | H : str_eqb _ _ = true |- _ => apply str_eqb_eq in H; subst
           | H : (_ =? _) = true |- _ => apply Z.eqb_eq in H; subst
           | H : Bool.eqb _ _ = true |- _ => apply Bool.eqb_prop in H; subst
           end; reflexivity.
Qed.

Lemma prefixb_sound (l1 l2 : list event) : prefixb l1 l2 = true -> prefix l1 l2.
Proof.
  revert l2. induction l1 as [|a l1 IH]; intros l2 H.
  - now exists l2.
  - destruct l2 as [|b l2]; [discriminate|]. cbn in H.
    apply andb_true_iff in H. destruct H as [Hab Hl].
    apply event_eqb_eq in Hab. subst b. destruct (IH l2 Hl) as [t ->]. now exists t.
Qed.

(** X9. Whatever happens during it (an interrupt at any point, a closed
    connection), what the Demo Sequence has done is a beginning of its fixed
    script: no step is skipped, repeated or reordered, and nothing else is
    written or printed.  It ends normally exactly when the whole script was
    run, and it leaves standard input and the state of the connection as
    they were. *)
Theorem demo_mode_log_prefix (ser : Serial) (w : World) :
  let r := demo_mode ser w in
  prefix (log_of r) demo_log
  /\ (outcome_of r = Ok tt <-> log_of r = demo_log)
  /\ stdin (world_of r) = stdin w
  /\ is_open (world_of r) = is_open w.
Proof.
  destruct w as [i s c o e op b]. cbv zeta.
  destruct op;
    (destruct s as [k|]; [ do 27 (destruct k as [|k]; [shelve |]) |]);
    (split; [apply prefixb_sound; vm_compute; reflexivity |]);
    (split; [ vm_compute; split; intros H; first [reflexivity | discriminate H]
            | split; vm_compute; reflexivity ]).
  Unshelve.
  all: (split; [apply prefixb_sound; vm_compute; reflexivity |]);
    (split; [ vm_compute; split; intros H; discriminate H
            | split; vm_compute; reflexivity ]).
Qed.

(** X10. On a closed connection the Demo Sequence stops at its first command:
    the two header lines and the first label are printed, then the write
    raises; nothing is sent and no pause is taken. *)
Theorem demo_mode_closed_raises (ser : Serial) (w : World) :
  sigint w = None -> is_open w = false ->
  demo_mode ser w
  = Res (Raise (SerialException port_not_open)) w
      [ EPrint (LF :: lit "=== DEMO MODE ===" ++ [LF]) false;
        EPrint (lit "Running motor demo sequence..." ++ [LF]) false;
        EPrint (LF :: lit "Minimum position..." ++ [LF]) false ].
Proof.
  intros Hq Ho. destruct w as [i s c o e op b]. cbn in Hq, Ho. subst s op.
  vm_compute. reflexivity.
Qed.

Lemma demo_mode_closed_raises_witness :
  outcome_of (demo_mode acm0 (bench [] None [tilta_port]))
  = Raise (SerialException port_not_open).
Proof.
  rewrite (demo_mode_closed_raises acm0 (bench [] None [tilta_port]) eq_refl eq_refl).
  reflexivity.
Defined.

(** ** The Connector, further *)

Section ConnectorFurther.

Variable py_int : str -> option Z.

Ltac run_extra ::=
  lazymatch goal with
  | |- int_ _ _ _ = _ => first [ eapply int_ok; eassumption | eapply int_bad; eassumption ]
  | |- device_at _ _ _ = _ => eapply device_at_ok; first [ eassumption | reflexivity ]
  end.


(** X12. With several candidates, the number typed is an index into the list
    of candidates (as printed after [Found ... motor controllers]), not into
    the listing of all ports: the candidate at that index is the port that is
    opened. *)
Theorem connect_selects_candidate (w : World) (line : str) (rest : list str)
    (n : Z) (p : Port) :
  sigint w = None -> stdin w = line :: rest ->
  (2 <= length (candidates (comports w)))%nat ->
  py_int line = Some n -> 0 <= n ->
  nth_error (candidates (comports w)) (Z.to_nat n) = Some p ->
  connect_to_device py_int None w
  = after (menu (comports w) ++ [EInput (lit "Select device number: ")])
      (opening (set_stdin rest w) (device p)).
Proof.
  intros Hq Hin Hlen Hpi Hn Hp.
  assert (Ht : truthy (candidates (comports w)) = true)
    by (destruct (candidates (comports w)); [cbn in Hlen; lia | reflexivity]).
  assert (Hpr : prompting (comports w)).
  { split; [| lia]. intros E. rewrite E in Hlen. cbn in Hlen. lia. }
  rewrite (connect_select_valid py_int w line rest n p Hq Hin Hpr Hpi Hn).
  - unfold prompt_of. now rewrite Ht.
  - unfold offered. now rewrite Ht.
Qed.

(** X13. End of input at the prompt is not a selection failure: the
    [EOFError] of [input] is not caught by [connect_to_device]; it leaves the
    function after the menu and the prompt, with nothing opened. *)
Theorem connect_eof_at_prompt (w : World) :
  sigint w = None -> stdin w = [] -> prompting (comports w) ->
  connect_to_device py_int None w
  = Res (Raise EOFError) w
      (menu (comports w) ++ [EInput (prompt_of (comports w))]).
Proof.
  intros Hq Hin [Hports Hlen].
  assert (Htp : truthy (comports w) = true) by (now destruct (comports w)).
  apply Nat.eqb_neq in Hlen.
  unfold connect_to_device, select_from, menu, device_lines, prompt_of, candidates in *.
  destruct (truthy (filter is_candidate (comports w))) eqn:Htr;
    run_eq_with ltac:(first [ progress cbn -[Z.of_nat length Z.leb Z.ltb Nat.eqb]
                            | rewrite Htr | rewrite Hlen | rewrite Htp ]).
Qed.

(** X23. With ports but no candidate among them, the number typed is an
    index into the listing of all ports, under the second prompt: the port at
    that index is the one that is opened, whatever its description. *)
Theorem connect_selects_port (w : World) (line : str) (rest : list str)
    (n : Z) (p : Port) :
  sigint w = None -> stdin w = line :: rest ->
  candidates (comports w) = [] ->
  py_int line = Some n -> 0 <= n ->
  nth_error (comports w) (Z.to_nat n) = Some p ->
  connect_to_device py_int None w
  = after (listing (comports w)
             ++ [EInput (LF :: lit "No motor controller found. Select port number: ")])
      (opening (set_stdin rest w) (device p)).
Proof.
  intros Hq Hin Hc Hpi Hn Hp.
  assert (Hpr : prompting (comports w)).
  { split; [| rewrite Hc; discriminate].
    intros E. rewrite E in Hp. now destruct (Z.to_nat n). }
  rewrite (connect_select_valid py_int w line rest n p Hq Hin Hpr Hpi Hn).
  - unfold prompt_of, menu. rewrite Hc. cbn [truthy]. now rewrite app_nil_r.
  - unfold offered. rewrite Hc. exact Hp.
Qed.

End ConnectorFurther.


Lemma connect_selects_candidate_witness :
  outcome_of (connect_to_device ascii_int None
                (bench [lit "1"] None [other_port; tilta_port; second_tilta_port]))
  = Ok (Some (mkSerial (lit "/dev/ttyACM1"))).
Proof.
  rewrite (connect_selects_candidate ascii_int
             (bench [lit "1"] None [other_port; tilta_port; second_tilta_port])
             (lit "1") [] 1 second_tilta_port eq_refl eq_refl);
    [reflexivity | vm_compute; lia | reflexivity | lia | reflexivity].
Defined.

Lemma connect_selects_port_witness :
  outcome_of (connect_to_device ascii_int None
                (bench [lit "0"] None [other_port]))
  = Ok (Some (mkSerial (device other_port))).
Proof.
  rewrite (connect_selects_port ascii_int (bench [lit "0"] None [other_port])
             (lit "0") [] 0 other_port eq_refl eq_refl);
    [reflexivity | reflexivity | reflexivity | lia | reflexivity].
Defined.

Lemma connect_eof_at_prompt_witness :
  outcome_of (connect_to_device ascii_int None (bench [] None [other_port]))
  = Raise EOFError.
Proof.
  rewrite (connect_eof_at_prompt ascii_int (bench [] None [other_port]) eq_refl eq_refl);
    [reflexivity |].
  split; [discriminate | vm_compute; discriminate].
Defined.

(** ** The connection across [connect_to_device], further *)

Section AttemptsFurther.

Variable py_int : str -> option Z.

Lemma plain_no_open_event (l : list event) :
  forallb plain l = true -> filter is_open_event l = [].
Proof.
  intros H. apply filter_none. apply forallb_forall. intros e He.
  apply (proj1 (forallb_forall _ _) H) in He. unfold plain in He.
  now apply andb_true_iff in He.
Qed.

Lemma open_chosen_attempts (w : World) (name : str) :
  (length (filter is_open_event
     (log_of (try_except
                (ser <- serial_open name 115200 1000 ;;
                 print_ (lit "Connected to " ++ name) ;;
                 ret (Some ser))
                (on_SerialException
                   (fun msg =>
                      print_ (lit "Failed to connect to " ++ name ++ lit ": " ++ msg) ;;
                      ret None)) w))) <= 1)%nat.
Proof.
  destruct (serial_open_cases name 115200 1000 w) as [(w1 & E & Ho) | [(w1 & msg & E) | E]].
  - destruct (print_cases (lit "Connected to " ++ name) w1) as [(w2 & E2 & Ho2) | E2].
    + rewrite (try_run_ok _ _ _ _ _ _
                 (bind_run _ _ _ _ _ _ _ _ _ E
                    (bind_run _ (fun _ => ret (Some (mkSerial name))) _ _ _ _ _ _ _ E2 eq_refl))).
      cbn. lia.
    + rewrite (try_run_pass _ _ _ _ _ _
                 (bind_run _ _ _ _ _ _ _ _ _ E
                    (bind_raise _ (fun _ => ret (Some (mkSerial name))) _ _ _ _ E2)) eq_refl).
      cbn. lia.
  - destruct (print_cases (lit "Failed to connect to " ++ name ++ lit ": " ++ msg) w1)
      as [(w2 & E2 & Ho2) | E2].
    + rewrite (try_run_handled _ _ _ _ _ _ _ _ _ _
                 (bind_raise _ _ _ _ _ _ E) eq_refl
                 (bind_run _ (fun _ => ret None) _ _ _ _ _ _ _ E2 eq_refl)).
      cbn. lia.
    + rewrite (try_run_handled _ _ _ _ _ _ _ _ _ _
                 (bind_raise _ _ _ _ _ _ E) eq_refl
                 (bind_raise _ (fun _ => ret None) _ _ _ _ E2)).
      cbn. lia.
  - rewrite (try_run_pass _ _ _ _ _ _ (bind_raise _ _ _ _ _ _ E) eq_refl).
    cbn. lia.
Qed.

(** X14. However it ends (a port opened, a failure, an interrupt, end of
    input), one call of [connect_to_device] tries to open a port at most
    once, closes nothing, and returns a connection only when one is open. *)
Theorem connect_tries_once (port_name : option str) (w : World) :
  let r := connect_to_device py_int port_name w in
  (length (filter is_open_event (log_of r)) <= 1)%nat
  /\ count_close (log_of r) = 0%nat
  /\ (forall ser, outcome_of r = Ok (Some ser) -> is_open (world_of r) = true)
  /\ (outcome_of r = Ok None -> existsb is_open_ok (log_of r) = false).
Proof.
  cbv zeta. destruct (connect_connected py_int port_name w) as (Ht & _ & _ & Ho).
  split; [| split; [now apply count_close_tame | split]].
  - unfold connect_to_device.
    match goal with
    | |- context [bind ?sel _ w] => assert (Hcalm : calm sel)
    end.
    { destruct (negb (truthy match port_name with Some s => s | None => [] end));
        [| apply calm_ret].
      apply calm_bind; [apply calm_list_devices|]. intros [ports devices].
      destruct (truthy devices).
      - destruct (length devices =? 1)%nat.
        + apply calm_bind; [apply calm_device_at|]. intros name.
          apply calm_bind; [now apply calm_print | intros _; apply calm_ret].
        + apply calm_bind; [now apply calm_print|]. intros _.
          apply calm_bind; [| intros _; apply calm_select_from].
          apply calm_for_enumerate. intros j dev. now apply calm_print.
      - destruct (negb (truthy ports)).
        + apply calm_bind; [now apply calm_print | intros _; apply calm_ret].
        + apply calm_select_from. }
    specialize (Hcalm w). destruct Hcalm as (Hl & _).
    apply bind_elim; intros *; intros Hsel; rewrite Hsel in Hl; cbn in Hl.
    + unfold after. cbn [log_of]. rewrite filter_app, (plain_no_open_event _ Hl).
      cbn [app]. destruct a as [name|]; [apply open_chosen_attempts | unfold ret; cbn; lia].
    + cbn. rewrite (plain_no_open_event _ Hl). cbn. lia.
    + cbn. rewrite (plain_no_open_event _ Hl). cbn. lia.
  - intros ser E. now rewrite E in Ho.
  - intros E. now rewrite E in Ho.
Qed.

End AttemptsFurther.

(** ** The Interactive Session and [main], further *)

Lemma ascii_lower_from_ascii (c : Z) :
  is_ascii (ascii_lower c) = true -> is_ascii c = true.
Proof.
  unfold is_ascii, ascii_lower.
  destruct ((65 <=? c) && (c <=? 90)) eqn:E; [|trivial].
  intros _. apply andb_true_iff in E. rewrite !Z.leb_le in E.
  apply andb_true_iff. rewrite Z.leb_le, Z.ltb_lt. lia.
Qed.

Lemma lowered_ascii (k s : str) :
  map ascii_lower s = k -> forallb is_ascii k = true -> forallb is_ascii s = true.
Proof.
  intros <-. induction s as [|c s IH]; [reflexivity|].
  cbn [map forallb]. intros H. apply andb_true_iff in H. destruct H as [Hc Hs].
  apply andb_true_iff. split; [now apply ascii_lower_from_ascii | now apply IH].
Qed.

Lemma set_stdin_twice (a b : list str) (w : World) :
  set_stdin a (set_stdin b w) = set_stdin a w.
Proof. reflexivity. Qed.

Section SessionFurther.

Variable unicode_upper : str -> str.
Variable unicode_lower : str -> str.
Variable py_int : str -> option Z.

(** The test of [main] on its arguments, for an ASCII argument. *)
Lemma wants_demo_ascii (prog a : str) (more : list str) :
  forallb is_ascii a = true ->
  (wants_demo unicode_lower (prog :: a :: more) = true <-> map ascii_lower a = lit "demo")
  /\ wants_demo unicode_lower [prog] = false
  /\ wants_demo unicode_lower [] = false.
Proof.
  intros Ha. unfold wants_demo, lower. cbn [length Nat.ltb Nat.leb nth andb].
  rewrite Ha. rewrite str_eqb_eq. repeat split; trivial.
Qed.

Lemma wants_demo_any_case (prog a : str) (more : list str) :
  map ascii_lower a = lit "demo" ->
  wants_demo unicode_lower (prog :: a :: more) = true.
Proof.
  intros H. unfold wants_demo, lower. cbn [length Nat.ltb Nat.leb nth andb].
  rewrite (lowered_ascii _ _ H eq_refl), H. reflexivity.
Qed.

Lemma step_passes (ser : Serial) (w : World) (line : str) (rest : list str) :
  sigint w = None -> is_open w = true -> stdin w = line :: rest ->
  passes unicode_upper line ->
  interactive_step unicode_upper ser w
  = Res (Ok Continue) (set_stdin rest w) (line_log unicode_upper line).
Proof.
  intros Hq Ho Hin [HQ [bs He]].
  rewrite (interactive_step_quiet unicode_upper ser w line rest Hq Ho Hin).
  unfold line_log. cbv zeta. apply str_eqb_neq in HQ. rewrite HQ, He.
  destruct (str_eqb (upper unicode_upper (strip line)) (lit "DEMO")); [reflexivity|].
  destruct (truthy (strip line)); reflexivity.
Qed.

Lemma interactive_loop_script (ser : Serial) (lines : list str) :
  forall (fuel : nat) (w : World) (tail : list str),
  sigint w = None -> is_open w = true -> stdin w = lines ++ tail ->
  Forall (passes unicode_upper) lines ->
  interactive_loop unicode_upper (length lines + fuel) ser w
  = after (flat_map (line_log unicode_upper) lines)
      (interactive_loop unicode_upper fuel ser (set_stdin tail w)).
Proof.
  induction lines as [|line lines IH]; intros fuel w tail Hq Ho Hin Hp.
  - cbn in *. unfold after. cbn [app].
    replace (set_stdin tail w) with w by (destruct w; cbn in Hin; now subst).
    now rewrite result_eta.
  - inversion Hp as [|? ? Hl Hls]; subst. cbn [length Nat.add interactive_loop].
    rewrite (bind_ok _ _ _ _ _ _ (step_passes ser w line (lines ++ tail) Hq Ho Hin Hl)).
    rewrite (IH fuel (set_stdin (lines ++ tail) w) tail Hq Ho eq_refl Hls).
    unfold after. cbn [outcome_of world_of log_of flat_map].
    now rewrite set_stdin_twice, app_assoc.
Qed.

Lemma interactive_mode_banner (ser : Serial) (w : World) (r : result unit) :
  sigint w = None ->
  interactive_loop unicode_upper (S (length (stdin w))) ser w = r ->
  interactive_mode unicode_upper ser w = after banner r.
Proof.
  intros Hq Hr. unfold interactive_mode, after.
  destruct r as [o w' l]. cbn [outcome_of world_of log_of].
  lazymatch goal with
  | |- ?lhs = _ =>
    let H := fresh "Hrun" in
    eassert (H : lhs = _);
      [ run_with ltac:(first [ rewrite Hr; reflexivity | progress cbn ]) | rewrite H; clear H ]
  end.
  reflexivity.
Qed.

(** The session on a script of lines that holds a QUIT. *)
Lemma interactive_mode_quit_run (ser : Serial) (w : World)
    (lines : list str) (q : str) (rest : list str) :
  sigint w = None -> is_open w = true ->
  stdin w = lines ++ q :: rest ->
  Forall (passes unicode_upper) lines ->
  is_keyword (lit "QUIT") (strip q) ->
  interactive_mode unicode_upper ser w
  = Res (Ok tt) (set_stdin rest w)
      (banner ++ flat_map (line_log unicode_upper) lines ++ [EInput []]).
Proof.
  intros Hq Ho Hin Hp Hk.
  rewrite (interactive_mode_banner ser w
             (Res (Ok tt) (set_stdin rest w)
                (flat_map (line_log unicode_upper) lines ++ [EInput []])) Hq);
    [reflexivity|].
  replace (S (length (stdin w))) with (length lines + S (S (length rest)))%nat
    by (rewrite Hin, length_app; cbn [length]; lia).
  rewrite (interactive_loop_script ser lines _ w (q :: rest) Hq Ho Hin Hp).
  cbn [interactive_loop].
  rewrite (bind_ok _ _ _ _ _ _
             (step_quit unicode_upper ser (set_stdin (q :: rest) w) q rest Hq Ho eq_refl Hk)).
  unfold after, ret. cbn [outcome_of world_of log_of]. now rewrite set_stdin_twice.
Qed.

(** X16. With no interrupt and the connection open, the Interactive Session
    prints its banner, starts the reader, and takes the lines of standard
    input in order up to the first QUIT: each line before it is acted on
    (sent, or the Demo Sequence, or nothing for a blank line), QUIT itself
    ends the session normally, and the lines after QUIT are left unread. *)
Theorem interactive_mode_until_quit (ser : Serial) (w : World)
    (lines : list str) (q : str) (rest : list str) :
  sigint w = None -> is_open w = true ->
  stdin w = lines ++ q :: rest ->
  Forall (passes unicode_upper) lines ->
  is_keyword (lit "QUIT") (strip q) ->
  interactive_mode unicode_upper ser w
  = Res (Ok tt) (set_stdin rest w)
      (banner ++ flat_map (line_log unicode_upper) lines ++ [EInput []]).
Proof.
  exact (interactive_mode_quit_run ser w lines q rest).
Qed.



(** X18. An interrupt that arrives while the Interactive Session waits for a
    line ends the loop like QUIT: the notice is printed, the pending line is
    not read, nothing is sent. *)
Theorem interactive_step_interrupted (ser : Serial) (w : World) :
  sigint w = Some 0%nat ->
  interactive_step unicode_upper ser w
  = Res (Ok Break) (set_sigint None w) [EPrint ((LF :: lit "Exiting...") ++ [LF]) false].
Proof.
  intros Hs. unfold interactive_step.
  assert (Hin : input_ [] w = Res (Raise KeyboardInterrupt) (set_sigint None w) []).
  { unfold input_. apply bind_raise. unfold tick. now rewrite Hs. }
  etransitivity.
  - eapply try_run_handled; [apply bind_raise; exact Hin | reflexivity |].
    eapply bind_run; [apply print_quiet; reflexivity | reflexivity].
  - reflexivity.
Qed.

End SessionFurther.

Lemma interactive_mode_until_quit_witness :
  interactive_mode no_unicode acm0
    (bench_open [lit "status"; lit ""; lit " Quit "; lit "pos 1"] None)
  = Res (Ok tt) (bench_open [lit "pos 1"] None)
      (banner ++ [EInput []; EWrite (lit "status" ++ [13; 10]); ESleep 100; EInput [];
                  EInput []]).
Proof.
  rewrite (interactive_mode_until_quit no_unicode acm0
             (bench_open [lit "status"; lit ""; lit " Quit "; lit "pos 1"] None)
             [lit "status"; lit ""] (lit " Quit ") [lit "pos 1"]
             eq_refl eq_refl eq_refl).
  - reflexivity.
  - repeat (apply Forall_cons; [split; [discriminate | eexists; reflexivity] |]).
    apply Forall_nil.
  - reflexivity.
Defined.


Lemma interactive_step_interrupted_witness :
  interactive_step no_unicode acm0 (bench_open [lit "pos 1"] (Some 0%nat))
  = Res (Ok Break) (bench_open [lit "pos 1"] None)
      [EPrint ((LF :: lit "Exiting...") ++ [LF]) false].
Proof.
  apply (interactive_step_interrupted no_unicode acm0
           (bench_open [lit "pos 1"] (Some 0%nat))). reflexivity.
Defined.

(** ** Whole runs of [main] *)

Section MainFurther.

Variable unicode_upper : str -> str.
Variable unicode_lower : str -> str.
Variable py_int : str -> option Z.

Ltac run_extra ::=
  lazymatch goal with
  | |- connect_to_device _ _ _ = _ => eassumption
  | |- interactive_mode _ _ _ = _ => eassumption
  end.

(** [main] up to the session: the two header lines, the connector, the
    settle delay and the reading away of what is waiting. *)
Lemma main_after_open (argv : list str) (w w1 : World) (ser : Serial) (l1 : list event)
    (o : outcome unit) (w2 : World) (l2 : list event) :
  sigint w = None ->
  connect_to_device py_int None w = Res (Ok (Some ser)) w1 l1 ->
  sigint w1 = None ->
  ((if wants_demo unicode_lower argv then demo_mode ser
    else interactive_mode unicode_upper ser) ;;
   ser_close ser ;;
   print_ (lit "Disconnected")) (set_in_buf [] w1) = Res o w2 l2 ->
  main unicode_upper unicode_lower py_int argv w
  = Res o w2 (header ++ l1 ++ settle (in_buf w1) ++ l2).
Proof.
  intros Hq Hc Hq1 Ht.
  pose proof (connect_connected py_int None w) as (_ & _ & _ & Ho1).
  rewrite Hc in Ho1. cbn in Ho1.
  unfold main. fold (wants_demo unicode_lower argv).
  destruct (in_buf w1) as [|b bs] eqn:Eb.
  - assert (Hw : set_in_buf [] w1 = w1) by (destruct w1; cbn in Eb; now subst).
    rewrite Hw in Ht.
    eapply eq_trans.
    + eapply bind_run; [apply print_quiet; assumption |].
      eapply bind_run; [apply print_quiet; assumption |].
      eapply bind_run; [exact Hc |]. cbv beta iota.
      eapply bind_run; [apply sleep_quiet; assumption |].
      eapply bind_run; [apply ser_in_waiting_quiet; assumption |].
      rewrite Eb. cbn [length Nat.ltb Nat.leb].
      eapply bind_run; [reflexivity | exact Ht].
    + reflexivity.
  - assert (Hskip : set_in_buf (skipn (length (in_buf w1)) (in_buf w1)) w1 = set_in_buf [] w1)
      by (now rewrite skipn_all).
    eapply eq_trans.
    + eapply bind_run; [apply print_quiet; assumption |].
      eapply bind_run; [apply print_quiet; assumption |].
      eapply bind_run; [exact Hc |]. cbv beta iota.
      eapply bind_run; [apply sleep_quiet; assumption |].
      eapply bind_run; [apply ser_in_waiting_quiet; assumption |].
      rewrite Eb. cbn [length Nat.ltb Nat.leb].
      eapply bind_run.
      * eapply bind_run; [apply ser_in_waiting_quiet; assumption |].
        eapply bind_run; [apply ser_read_quiet; assumption | reflexivity].
      * rewrite Hskip. exact Ht.
    + rewrite firstn_all, Eb. reflexivity.
Qed.

(** [main] once the connector has opened a port: what is done up to the
    session, then the session, the close and the last line. *)
Lemma main_session (argv : list str) (w w1 : World) (ser : Serial) (l1 : list event) :
  sigint w = None ->
  connect_to_device py_int None w = Res (Ok (Some ser)) w1 l1 ->
  sigint w1 = None ->
  main unicode_upper unicode_lower py_int argv w
  = after (header ++ l1 ++ settle (in_buf w1))
      (((if wants_demo unicode_lower argv then demo_mode ser
         else interactive_mode unicode_upper ser) ;;
        ser_close ser ;;
        print_ (lit "Disconnected")) (set_in_buf [] w1)).
Proof.
  intros Hq Hc Hq1.
  match goal with
  | |- _ = after _ ?r => destruct r as [o w2 l2] eqn:E
  end.
  rewrite (main_after_open argv w w1 ser l1 o w2 l2 Hq Hc Hq1 E).
  unfold after. cbn [outcome_of world_of log_of]. now rewrite <- !app_assoc.
Qed.

(** X15. Once the connector has opened a port, [main] runs the Demo Sequence
    exactly when there is a first argument and it is [demo] in some letter
    case (here for an ASCII argument), and the Interactive Session
    otherwise; further arguments are ignored, and with no argument at all it
    is the Interactive Session.  Either way the close and the last line
    follow. *)
Theorem main_demo_argument (prog a : str) (more : list str) (w w1 : World)
    (ser : Serial) (l1 : list event) :
  sigint w = None ->
  connect_to_device py_int None w = Res (Ok (Some ser)) w1 l1 ->
  sigint w1 = None ->
  forallb is_ascii a = true ->
  let session (demo : bool) :=
    after (header ++ l1 ++ settle (in_buf w1))
      (((if demo then demo_mode ser else interactive_mode unicode_upper ser) ;;
        ser_close ser ;;
        print_ (lit "Disconnected")) (set_in_buf [] w1)) in
  main unicode_upper unicode_lower py_int (prog :: a :: more) w
  = session (str_eqb (map ascii_lower a) (lit "demo"))
  /\ main unicode_upper unicode_lower py_int [prog] w = session false
  /\ main unicode_upper unicode_lower py_int [] w = session false.
Proof.
  intros Hq Hc Hq1 Ha session. subst session. cbv beta.
  rewrite !(main_session _ w w1 ser l1 Hq Hc Hq1).
  assert (Hd : wants_demo unicode_lower (prog :: a :: more)
               = str_eqb (map ascii_lower a) (lit "demo")).
  { unfold wants_demo, lower. cbn [length Nat.ltb Nat.leb nth andb]. now rewrite Ha. }
  rewrite Hd. repeat split.
Qed.

(** X19. When the connector returns no connection, [main] ends normally at
    once: no settle delay, no session, no close, no [Disconnected] line. *)
Theorem main_without_connection (argv : list str) (w w1 : World) (l1 : list event) :
  sigint w = None ->
  connect_to_device py_int None w = Res (Ok None) w1 l1 ->
  main unicode_upper unicode_lower py_int argv w = Res (Ok tt) w1 (header ++ l1).
Proof.
  intros Hq Hc. unfold main.
  eapply eq_trans.
  - eapply bind_run; [apply print_quiet; assumption |].
    eapply bind_run; [apply print_quiet; assumption |].
    eapply bind_run; [exact Hc | reflexivity].
  - cbn [app]. now rewrite app_nil_r.
Qed.

(** X20. A whole run with [demo] as argument, no interrupt: after the
    connector has opened a port, [main] waits one second, reads away every
    byte that was waiting, runs the whole Demo Sequence, closes the
    connection and prints [Disconnected]; nothing is sent before the waiting
    bytes are gone, and nothing after the close. *)
Theorem main_demo_run (argv : list str) (w w1 : World) (ser : Serial) (l1 : list event) :
  sigint w = None ->
  connect_to_device py_int None w = Res (Ok (Some ser)) w1 l1 ->
  sigint w1 = None ->
  wants_demo unicode_lower argv = true ->
  main unicode_upper unicode_lower py_int argv w
  = Res (Ok tt) (set_is_open false (set_in_buf [] w1))
      (header ++ l1 ++ settle (in_buf w1) ++ demo_log ++ farewell).
Proof.
  intros Hq Hc Hq1 Hd.
  pose proof (connect_connected py_int None w) as (_ & _ & _ & Ho1).
  rewrite Hc in Ho1. cbn in Ho1.
  apply (main_after_open argv w w1 ser l1 _ _ _ Hq Hc Hq1).
  rewrite Hd. run_eq_with ltac:(cbn).
Qed.



End MainFurther.

Lemma main_without_connection_witness :
  main no_unicode no_unicode ascii_int [lit "server.py"] (bench [] None [])
  = Res (Ok tt) (bench [] None [])
      (header ++ [EPrint (lit "No serial ports found!" ++ [LF]) false]).
Proof.
  apply (main_without_connection no_unicode no_unicode ascii_int [lit "server.py"]
           (bench [] None []) (bench [] None [])); reflexivity.
Defined.

Lemma main_demo_argument_witness :
  main no_unicode no_unicode ascii_int [lit "server.py"; lit "DeMo"; lit "--fast"]
    (bench [] None [tilta_port])
  = after (header
             ++ log_of (connect_to_device ascii_int None (bench [] None [tilta_port]))
             ++ settle [])
      ((demo_mode acm0 ;; ser_close acm0 ;; print_ (lit "Disconnected"))
         (bench_open [] None)).
Proof.
  exact (proj1 (main_demo_argument no_unicode no_unicode ascii_int
                  (lit "server.py") (lit "DeMo") [lit "--fast"]
                  (bench [] None [tilta_port]) (bench_open [] None) acm0
                  (log_of (connect_to_device ascii_int None (bench [] None [tilta_port])))
                  eq_refl eq_refl eq_refl eq_refl)).
Defined.

Lemma main_demo_run_witness :
  main no_unicode no_unicode ascii_int [lit "server.py"; lit "Demo"]
    (mkWorld [] None [tilta_port] [device tilta_port] [] false (lit "boot"))
  = Res (Ok tt)
      (set_is_open false
         (set_in_buf []
            (mkWorld [] None [tilta_port] [device tilta_port] [] true (lit "boot"))))
      (header
         ++ log_of (connect_to_device ascii_int None
                      (mkWorld [] None [tilta_port] [device tilta_port] [] false
                         (lit "boot")))
         ++ settle (lit "boot") ++ demo_log ++ farewell).
Proof.
  apply (main_demo_run no_unicode no_unicode ascii_int [lit "server.py"; lit "Demo"]
           (mkWorld [] None [tilta_port] [device tilta_port] [] false (lit "boot"))
           (mkWorld [] None [tilta_port] [device tilta_port] [] true (lit "boot"))
           acm0); reflexivity.
Defined.


